(** * ResearchAgent: the planning loop and the response extractor

    A shallow embedding of [research_agent.py].  The language model, the
    tools' back ends and [json.loads] are external to the repository and
    enter as parameters; everything the class itself does (the regular
    expression fallback of [_extract_json], the session dictionary, the
    [try]/[except] of each round, the final [ResearchResponse]) is written
    out as it stands in the source. *)

From Stdlib Require Import ZArith Ascii Lia.
From stdpp Require Import base option list gmap strings fin_maps.

(** [simpl] may unfold string concatenation on a constructor. *)
#[local] Arguments String.append !_ _ / : simpl nomatch.
#[local] Arguments Ascii.eqb : simpl never.

(** ** Text

    A text is a [string]; a character is a code point below 256. *)

Module Text.

(** The class [\s] of [re] on [str] patterns, on code points below 256:
    TAB..CR, FS..US, space, NEL and NBSP. *)
Definition is_space (c : ascii) : bool :=
  let n := nat_of_ascii c in
  ((9 <=? n)%nat && (n <=? 13)%nat) || ((28 <=? n)%nat && (n <=? 32)%nat)
  || (n =? 133)%nat || (n =? 160)%nat.

Fixpoint skip_spaces (s : string) : string :=
  match s with
  | String c s' => if is_space c then skip_spaces s' else s
  | EmptyString => s
  end.

Fixpoint all_space (s : string) : bool :=
  match s with
  | String c s' => is_space c && all_space s'
  | EmptyString => true
  end.

(** [strip_prefix p s] removes the literal [p] from the front of [s]. *)
Fixpoint strip_prefix (p s : string) : option string :=
  match p with
  | EmptyString => Some s
  | String a p' =>
      match s with
      | String b s' => if Ascii.eqb a b then strip_prefix p' s' else None
      | EmptyString => None
      end
  end.

(** [occurs c s]: the character [c] is somewhere in [s]. *)
Fixpoint occurs (c : ascii) (s : string) : bool :=
  match s with
  | String b s' => Ascii.eqb c b || occurs c s'
  | EmptyString => false
  end.

(** [contains p s]: the literal [p] is a substring of [s]. *)
Fixpoint contains (p s : string) : bool :=
  match strip_prefix p s with
  | Some _ => true
  | None =>
      match s with
      | String _ s' => contains p s'
      | EmptyString => false
      end
  end.

End Text.

(** ** The response extractor: [ResearchAgent._extract_json] *)

Module Extractor.
Import Text.

Definition fence : string := "```".
Definition lbrace : ascii := "{"%char.
Definition rbrace : ascii := "}"%char.
#[global] Arguments fence : simpl never.
#[global] Arguments lbrace : simpl never.
#[global] Arguments rbrace : simpl never.

(** The tail [\s*```] of the first pattern.  [\s*] is greedy, and a
    backquote is not a space, so giving spaces back never helps. *)
Definition closes_fence (s : string) : bool :=
  match strip_prefix fence (skip_spaces s) with
  | Some _ => true
  | None => false
  end.

(** [.*?\}\s*```] read just after the opening brace: the lazy body grows
    one character at a time and stops at the first closing brace that the
    tail follows.  The result is the body with that brace. *)
Fixpoint lazy_body (s : string) : option string :=
  match s with
  | EmptyString => None
  | String c s' =>
      if Ascii.eqb c rbrace && closes_fence s' then Some (String rbrace EmptyString)
      else String c <$> lazy_body s'
  end.

(** The first pattern, [```(?:json)?\s*(\{.*?\})\s*```] under [re.DOTALL],
    anchored at the start of [s]; the result is group 1.  After the
    opening fence the label is taken when it is there; without it the
    next character would have to be a space or the brace, so the two
    alternatives of [(?:json)?] never both apply. *)
Definition match_fenced (s : string) : option string :=
  s1 ← strip_prefix fence s;
  let s2 := default s1 (strip_prefix "json" s1) in
  match skip_spaces s2 with
  | String c s3 => if Ascii.eqb c lbrace then String lbrace <$> lazy_body s3 else None
  | EmptyString => None
  end.

(** [re.search]: the leftmost position at which the pattern matches. *)
Fixpoint search_fenced (s : string) : option string :=
  match match_fenced s with
  | Some g => Some g
  | None =>
      match s with
      | String _ s' => search_fenced s'
      | EmptyString => None
      end
  end.

(** [.*\}] after an opening brace, greedy: the longest prefix of [s] that
    ends in a closing brace. *)
Fixpoint greedy_body (s : string) : option string :=
  match s with
  | EmptyString => None
  | String c s' =>
      match greedy_body s' with
      | Some r => Some (String c r)
      | None => if Ascii.eqb c rbrace then Some (String rbrace EmptyString) else None
      end
  end.

(** The second pattern, [\{.*\}] under [re.DOTALL], searched from the
    left; the result is group 0. *)
Fixpoint search_braces (s : string) : option string :=
  match s with
  | EmptyString => None
  | String c s' =>
      if Ascii.eqb c lbrace then
        match greedy_body s' with
        | Some r => Some (String c r)
        | None => search_braces s'
        end
      else search_braces s'
  end.

Definition _extract_json (text : string) : string :=
  match search_fenced text with
  | Some g => g
  | None =>
      match search_braces text with
      | Some g => g
      | None => text
      end
  end.

(** A fenced block around a brace-delimited payload, as the first pattern
    reads it. *)
Definition fenced_block_at (pre label ws1 body ws2 post text : string) : Prop :=
  (label = EmptyString ∨ label = "json") ∧ all_space ws1 = true ∧ all_space ws2 = true ∧
  text = pre +:+ fence +:+ label +:+ ws1 +:+ String lbrace body +:+
         String rbrace ws2 +:+ fence +:+ post.

Definition has_fenced_block (text : string) : Prop :=
  ∃ pre label ws1 body ws2 post, fenced_block_at pre label ws1 body ws2 post text.

End Extractor.

(** ** JSON values, as [json.loads] builds them *)

Module Json.

(** A number is an [int] or a [float]; [JFloat m e] is the finite float
    [m * 2^e].  A [dict] is the list of its items: every key once, in
    insertion order. *)
#[warnings="-register-all"] Inductive json : Type :=
  | JNull
  | JBool (b : bool)
  | JInt (n : Z)
  | JFloat (m e : Z)
  | JStr (s : string)
  | JArr (items : list json)
  | JObj (items : list (string * json)).

(** Truth value of an object in a condition. *)
Definition truthy (j : json) : bool :=
  match j with
  | JNull => false
  | JBool b => b
  | JInt n => negb (n =? 0)%Z
  | JFloat m _ => negb (m =? 0)%Z
  | JStr s => match s with EmptyString => false | String _ _ => true end
  | JArr items => match items with [] => false | _ :: _ => true end
  | JObj items => match items with [] => false | _ :: _ => true end
  end.

(** [x or y] *)
Definition py_or (x y : json) : json := if truthy x then x else y.

Fixpoint dict_lookup (key : string) (items : list (string * json)) : option json :=
  match items with
  | [] => None
  | (k, v) :: items' => if String.eqb k key then Some v else dict_lookup key items'
  end.

(** The characters of a [str], each a [str] of length one. *)
Fixpoint chars (s : string) : list string :=
  match s with
  | EmptyString => []
  | String c s' => String c EmptyString :: chars s'
  end.

Definition as_str (j : json) : option string :=
  match j with JStr s => Some s | _ => None end.

Definition as_str_list (j : json) : option (list string) :=
  match j with JArr items => mapM as_str items | _ => None end.

End Json.

(** ** Exceptions and the state of a call *)

Module Py.
Import Json.

(** What a call into code outside the class gives: the model, a tool, a
    tool's back end.  [Failed d] is an exception [e] with [str(e) = d]. *)
Inductive outcome : Type :=
  | Returned (text : string)
  | Failed (description : string).

(** The exceptions of one call of [research]; all derive from
    [Exception]. *)
Inductive exn : Type :=
  | Failure (description : string)
  | JSONDecodeError
  | AttributeError
  | TypeError
  | ValidationError.

Inductive result (A : Type) : Type :=
  | Ok (a : A)
  | Raise (e : exn).
Arguments Ok {A} a.
Arguments Raise {A} e.

(** The [state] dictionary of [research]. *)
Record Session : Type := mkSession {
  tools_used : list string;
  tool_results : gmap string string;
  topic : string;
  summary : json;
  sources : json;
}.

(** The calls that leave the class, in the order they are made.  The
    source keeps no such record; it is carried along to state how often
    the model and the tools are called. *)
Inductive event : Type :=
  | LlmInvoked (iteration : Z)
  | ToolRun (iteration : Z) (name : string) (o : outcome).

Record World : Type := mkWorld {
  session : Session;
  trace : list event;
}.

(** A statement of the [try] block: it reads and writes the session and
    either yields a value or raises.  What was written before a raise
    stays written. *)
Definition M (A : Type) : Type := World → result A * World.

#[global] Instance M_ret : MRet M := λ A a w, (Ok a, w).
#[global] Instance M_bind : MBind M := λ A B k m w,
  match m w with
  | (Ok a, w') => k a w'
  | (Raise e, w') => (Raise e, w')
  end.

Definition raise {A : Type} (e : exn) : M A := λ w, (Raise e, w).
Definition lift {A : Type} (r : result A) : M A := λ w, (r, w).
Definition get_session : M Session := λ w, (Ok (session w), w).
Definition modify (f : Session → Session) : M unit :=
  λ w, (Ok (), mkWorld (f (session w)) (trace w)).
Definition emit (e : event) : M unit :=
  λ w, (Ok (), mkWorld (session w) (trace w ++ [e])).

Fixpoint for_each {A : Type} (body : A → M unit) (l : list A) : M unit :=
  match l with
  | [] => mret ()
  | x :: l' => body x;; for_each body l'
  end.

Definition of_outcome (o : outcome) : result string :=
  match o with
  | Returned text => Ok text
  | Failed d => Raise (Failure d)
  end.

(** [plan.get(key, dflt)]: only a [dict] has the method. *)
Definition plan_get (plan : json) (key : string) (dflt : json) : result json :=
  match plan with
  | JObj items => Ok (default dflt (dict_lookup key items))
  | _ => Raise AttributeError
  end.

(** [for x in j]: a list gives its items, a [str] its characters, a
    [dict] its keys; nothing else is iterable. *)
Definition py_iter (j : json) : result (list json) :=
  match j with
  | JArr items => Ok items
  | JStr s => Ok (JStr <$> chars s)
  | JObj items => Ok (JStr <$> items.*1)
  | _ => Raise TypeError
  end.

(** [range(lo, hi)] *)
Definition py_range (lo hi : Z) : list Z :=
  (λ k : nat, (lo + Z.of_nat k)%Z) <$> seq 0 (Z.to_nat (hi - lo)).

End Py.

(** ** The structured response: [ResearchResponse] *)

Module ResearchResponse.
Import Json Py.

Record t : Type := mk {
  topic : string;
  summary : string;
  sources : list string;
  tools_used : list string;
}.

(** [ResearchResponse(topic=.., summary=.., sources=.., tools_used=..)]:
    the model class validates its fields.  [summary: str] accepts a
    [str] and [sources: list[str]] a list of [str]; any other value
    raises [ValidationError] (a number for a [str] is refused since
    pydantic 2, a [str] or a [dict] for the list by every version).
    [topic] and [tools_used] are given as a [str] and a list of [str]. *)
Definition init (topic : string) (summary sources : json)
    (tools_used : list string) : result t :=
  match as_str summary, as_str_list sources with
  | Some s, Some l => Ok (mk topic s l tools_used)
  | _, _ => Raise ValidationError
  end.

End ResearchResponse.

(** ** The agent: [ResearchAgent] *)

Module Agent.
Import Json Py.

(** A tool's [run(query)].  What it gives may depend on the world outside;
    the round in which it is called stands for the moment of the call (in
    one round a tool runs at most once: after a return it is recorded,
    and a raise ends the round). *)
Abbreviation Tool := (Z → string → outcome).

Record HistoryItem : Type := mkItem {
  hist_query : string;
  hist_summary : string;
  hist_sources : list string;
}.

(** What [llm_input] is made of: the query, the context built from the
    last three exchanges, the tools used, their results and the names of
    the registered tools.  The rest of the prompt is fixed text. *)
Record Prompt : Type := mkPrompt {
  p_query : string;
  p_context : list (string * string);
  p_tools_used : list string;
  p_tool_results : gmap string string;
  p_available : gset string;
}.

(** [self.llm.invoke(llm_input)], then [.content]; as for a tool, the
    round stands for the moment of the call. *)
Abbreviation Llm := (Z → Prompt → outcome).

Record t : Type := mk {
  llm : Llm;
  tool_map : gmap string Tool;
  conversation_history : list HistoryItem;
}.

(** *** [_init_tools]: the three tools of a new agent

    Each wraps its back end in [try]/[except Exception] and returns the
    error as its result text. *)
Definition search_tool (search : Tool) : Tool := λ i query,
  match search i query with
  | Returned results => Returned ("DuckDuckGo Search Results: " +:+ results)
  | Failed d => Returned ("Search error: " +:+ d)
  end.

Definition wiki_tool (wikipedia : Tool) : Tool := λ i query,
  match wikipedia i query with
  | Returned results => Returned ("Wikipedia: " +:+ results)
  | Failed d => Returned ("Wikipedia error: " +:+ d)
  end.

(** [write] appends its argument to [research_output.txt]; what it
    returns is not used. *)
Definition save_tool (write : Tool) : Tool := λ i data,
  match write i (data +:+ String (ascii_of_nat 10) EmptyString) with
  | Returned _ => Returned "Data saved to research_output.txt"
  | Failed d => Returned ("Save error: " +:+ d)
  end.

Definition _init_tools (search wikipedia write : Tool) : gmap string Tool :=
  <["save_tool" := save_tool write]>
    (<["wiki_tool" := wiki_tool wikipedia]>
       (<["search_tool" := search_tool search]> ∅)).

(** [__init__]: the model, the three tools, no history. *)
Definition new (model : Llm) (search wikipedia write : Tool) : t :=
  mk model (_init_tools search wikipedia write) [].

Definition add_tool (name : string) (tool_func : Tool) (self : t) : t :=
  mk (llm self) (<[name := tool_func]> (tool_map self)) (conversation_history self).

Definition remove_tool (name : string) (self : t) : t :=
  mk (llm self) (delete name (tool_map self)) (conversation_history self).

Definition clear_history (self : t) : t :=
  mk (llm self) (tool_map self) [].

(** *** [research]

    [verbose] only prints and is left out. *)

Definition sentinel : string := "Unable to complete research".

(** [l[-3:]] *)
Definition last3 {A : Type} (l : list A) : list A := drop (length l - 3) l.

(** [s[:200]] *)
Definition first200 (s : string) : string := String.substring 0 200 s.

Definition context_of (history : list HistoryItem) : list (string * string) :=
  (λ item, (hist_query item, first200 (hist_summary item))) <$> last3 history.

Section Research.
Context (json_loads : string → option json).
Context (self : t) (query : string).

Definition prompt_of (st : Session) : Prompt :=
  mkPrompt query (context_of (conversation_history self))
    (tools_used st) (tool_results st) (dom (tool_map self)).

Definition loads (json_text : string) : result json :=
  match json_loads json_text with
  | Some plan => Ok plan
  | None => Raise JSONDecodeError
  end.

Definition set_summary (v : json) (st : Session) : Session :=
  mkSession (tools_used st) (tool_results st) (topic st) v (sources st).

Definition set_sources (v : json) (st : Session) : Session :=
  mkSession (tools_used st) (tool_results st) (topic st) (summary st) v.

(** [state["tool_results"][tool_name] = result] and
    [state["tools_used"].append(tool_name)] *)
Definition record_result (name result : string) (st : Session) : Session :=
  mkSession (tools_used st ++ [name]) (<[name := result]> (tool_results st))
    (topic st) (summary st) (sources st).

(** One turn of [for tool_name in new_tools].  A list or a [dict] is
    unhashable, so that the test [tool_name in self.tool_map] raises; a
    number, a Boolean or [None] is no key of the registry. *)
Definition run_tool (iteration : Z) (tool_name : json) : M unit :=
  match tool_name with
  | JStr name =>
      st ← get_session;
      match tool_map self !! name, tool_results st !! name with
      | Some tool, None =>
          let o := tool iteration query in
          emit (ToolRun iteration name o);;
          result ← lift (of_outcome o);
          modify (record_result name result)
      | _, _ => mret ()
      end
  | JArr _ | JObj _ => raise TypeError
  | _ => mret ()
  end.

(** How the body of the [for iteration] statement ends without raising. *)
Inductive signal : Type := Break | Next.

(** The [try] block of round [iteration]. *)
Definition round_body (iteration : Z) : M signal :=
  st ← get_session;
  let o := llm self iteration (prompt_of st) in
  emit (LlmInvoked iteration);;
  llm_text ← lift (of_outcome o);
  let json_text := Extractor._extract_json llm_text in
  plan ← lift (loads json_text);
  st ← get_session;
  v ← lift (plan_get plan "summary" (summary st));
  modify (set_summary v);;
  st ← get_session;
  v ← lift (plan_get plan "sources" (sources st));
  modify (set_sources v);;
  new_tools ← lift (plan_get plan "tools_used" (JArr []));
  st ← get_session;
  if negb (truthy new_tools) && truthy (summary st)
     && (2 <=? length (tools_used st))%nat
  then mret Break
  else
    items ← lift (py_iter new_tools);
    for_each (run_tool iteration) items;;
    mret Next.

(** [for iteration in ...: try: ... except Exception: continue] *)
Fixpoint rounds (iterations : list Z) (w : World) : World :=
  match iterations with
  | [] => w
  | i :: rest =>
      match round_body i w with
      | (Ok Break, w') => w'
      | (Ok Next, w') => rounds rest w'
      | (Raise _, w') => rounds rest w'
      end
  end.

Definition initial : World :=
  mkWorld (mkSession [] ∅ query (JStr EmptyString) (JArr [])) [].

(** The loop of [research]. *)
Definition research_loop (max_iterations : Z) : World :=
  rounds (py_range 1 (max_iterations + 1)) initial.

(** [ResearchResponse(...)] on the final state. *)
Definition respond (st : Session) : result ResearchResponse.t :=
  ResearchResponse.init (topic st)
    (py_or (summary st) (JStr sentinel))
    (py_or (sources st) (JArr []))
    (tools_used st).

(** [research(query, max_iterations)]: the response, or the exception
    that leaves the call, and the agent afterwards. *)
Definition research (max_iterations : Z) : result ResearchResponse.t * t :=
  let st := session (research_loop max_iterations) in
  match respond st with
  | Ok response =>
      (Ok response,
       mk (llm self) (tool_map self)
          (conversation_history self ++
             [mkItem query (ResearchResponse.summary response)
                     (ResearchResponse.sources response)]))
  | Raise e => (Raise e, self)
  end.

End Research.

End Agent.

(** ** What the trace says *)

Module Trace.
Import Py.

(** The rounds in which the model was called. *)
Definition llm_rounds (tr : list event) : list Z :=
  omap (λ e, match e with LlmInvoked i => Some i | _ => None end) tr.

(** The names of the tools that were run. *)
Definition called_names (tr : list event) : list string :=
  omap (λ e, match e with ToolRun _ n _ => Some n | _ => None end) tr.

(** The names of the tools whose run returned. *)
Definition returned_names (tr : list event) : list string :=
  omap (λ e, match e with ToolRun _ n (Returned _) => Some n | _ => None end) tr.

(** Once a tool has returned it is not run again. *)
Definition never_again (tr : list event) : Prop :=
  ∀ pre post i n r,
    tr = pre ++ ToolRun i n (Returned r) :: post → n ∉ called_names post.

End Trace.

(** ** The rounds of a call, step by step *)

Section Rounds.
Import Json Py Agent Trace.
Context (json_loads : string → option json).
Context (self : Agent.t) (query : string).

Local Abbreviation round_body := (Agent.round_body json_loads self query).

(** The world once the model has been called in round [i]. *)
Definition asked (i : Z) (w : World) : World :=
  mkWorld (session w) (trace w ++ [LlmInvoked i]).

(** The session once the plan's summary and sources are applied. *)
Definition applied (items : list (string * json)) (st : Session) : Session :=
  set_sources (default (sources st) (dict_lookup "sources" items))
    (set_summary (default (summary st) (dict_lookup "summary" items)) st).

(** The tools a plan asks for: [plan.get("tools_used", [])]. *)
Definition requested (items : list (string * json)) : json :=
  default (JArr []) (dict_lookup "tools_used" items).

(** The stop test of a round, on the session with the plan applied. *)
Definition stops (items : list (string * json)) (st : Session) : bool :=
  negb (truthy (requested items))
  && truthy (summary (applied items st))
  && (2 <=? length (tools_used st))%nat.

(** The world after the call of a tool that was due. *)
Definition called (i : Z) (name : string) (o : outcome) (w : World) : World :=
  match o with
  | Returned r => mkWorld (record_result name r (session w)) (trace w ++ [ToolRun i name o])
  | Failed _ => mkWorld (session w) (trace w ++ [ToolRun i name o])
  end.

(** *** The steps of a round

    After the model's call, a round goes through the session in steps:
    the plan's summary and sources are written, or a registered tool with
    no result yet is run. *)
Inductive tool_step (i : Z) : World → World → Prop :=
  | tool_step_run (w : World) (name : string) (tool : Tool) :
      tool_map self !! name = Some tool →
      tool_results (session w) !! name = None →
      tool_step i w (called i name (tool i query) w).

Inductive step (i : Z) : World → World → Prop :=
  | step_plan (w : World) (items : list (string * json)) (p : Prompt) (text : string) :
      llm self i p = Returned text →
      json_loads (Extractor._extract_json text) = Some (JObj items) →
      step i w (mkWorld (applied items (session w)) (trace w))
  | step_tool (w w' : World) :
      tool_step i w w' → step i w w'.

(** *** The worlds at the ends of rounds *)
Inductive after_rounds : World → Prop :=
  | after_none : after_rounds (Agent.initial query)
  | after_round (i : Z) (w : World) :
      after_rounds w → after_rounds (round_body i w).2.

(** *** What holds at the end of every round *)
Record consistent (w : World) : Prop := {
  c_nodup : NoDup (tools_used (session w));
  c_keys : dom (tool_results (session w)) = list_to_set (tools_used (session w));
  c_returned : returned_names (trace w) = tools_used (session w);
  c_stored : ∀ i n r,
    ToolRun i n (Returned r) ∈ trace w → tool_results (session w) !! n = Some r;
  c_genuine : ∀ i n o,
    ToolRun i n o ∈ trace w → ∃ tool, tool_map self !! n = Some tool ∧ o = tool i query;
  c_once : never_again (trace w);
  c_topic : topic (session w) = query;
}.

(** The plan keeps to the schema where the response needs it: a summary
    that is a string, sources that are a list of strings. *)
Definition plan_typed (items : list (string * json)) : Prop :=
  (∀ v, dict_lookup "summary" items = Some v → is_Some (as_str v))
  ∧ (∀ v, dict_lookup "sources" items = Some v → is_Some (as_str_list v)).

(** Every object the model's texts parse to keeps to the schema. *)
Definition emits_typed : Prop :=
  ∀ i p text items,
    llm self i p = Returned text →
    json_loads (Extractor._extract_json text) = Some (JObj items) →
    plan_typed items.

Definition session_typed (w : World) : Prop :=
  is_Some (as_str (summary (session w)))
  ∧ is_Some (as_str_list (sources (session w))).

(** The model never gives a text that parses to an object. *)
Definition never_plans : Prop :=
  ∀ i p text items,
    llm self i p = Returned text →
    json_loads (Extractor._extract_json text) ≠ Some (JObj items).

(** Two parsed values that differ at most in the [topic] entry of an
    object. *)
Definition same_but_topic (a b : option json) : Prop :=
  match a, b with
  | Some (JObj x), Some (JObj y) =>
      ∀ k, k ≠ "topic" → dict_lookup k x = dict_lookup k y
  | _, _ => a = b
  end.

End Rounds.

(** ** Concrete runs

    Texts a model may return, with the value [json.loads] gives on each,
    and agents to run them on. *)

Module Scenario.
Import Json Py Agent.

Definition dq : string := String (ascii_of_nat 34) EmptyString.
Definition quoted (s : string) : string := dq +:+ s +:+ dq.

(** [{"summary": "A", "tools_used": ["flaky"]}] *)
Definition text_flaky : string :=
  "{" +:+ quoted "summary" +:+ ": " +:+ quoted "A" +:+ ", " +:+
  quoted "tools_used" +:+ ": [" +:+ quoted "flaky" +:+ "]}".
Definition plan_flaky : json :=
  JObj [("summary", JStr "A"); ("tools_used", JArr [JStr "flaky"])].

(** [{"sources": ["b"]}] *)
Definition text_sources_only : string :=
  "{" +:+ quoted "sources" +:+ ": [" +:+ quoted "b" +:+ "]}".
Definition plan_sources_only : json :=
  JObj [("sources", JArr [JStr "b"])].

(** [{"sources": "wiki"}] *)
Definition text_sources_str : string :=
  "{" +:+ quoted "sources" +:+ ": " +:+ quoted "wiki" +:+ "}".
Definition plan_sources_str : json :=
  JObj [("sources", JStr "wiki")].

(** [{"summary": "X", "sources": [], "tools_used": []}] *)
Definition text_done : string :=
  "{" +:+ quoted "summary" +:+ ": " +:+ quoted "X" +:+ ", " +:+
  quoted "sources" +:+ ": [], " +:+ quoted "tools_used" +:+ ": []}".
Definition plan_done : json :=
  JObj [("summary", JStr "X"); ("sources", JArr []); ("tools_used", JArr [])].

(** [{"topic": "another", "summary": "X", "sources": [], "tools_used": []}] *)
Definition text_topic : string :=
  "{" +:+ quoted "topic" +:+ ": " +:+ quoted "another" +:+ ", " +:+
  quoted "summary" +:+ ": " +:+ quoted "X" +:+ ", " +:+
  quoted "sources" +:+ ": [], " +:+ quoted "tools_used" +:+ ": []}".
Definition plan_topic : json :=
  JObj [("topic", JStr "another"); ("summary", JStr "X"); ("sources", JArr []);
        ("tools_used", JArr [])].

(** [{"tools_used": ["search_tool", "wiki_tool"]}] *)
Definition text_both : string :=
  "{" +:+ quoted "tools_used" +:+ ": [" +:+ quoted "search_tool" +:+ ", " +:+
  quoted "wiki_tool" +:+ "]}".
Definition plan_both : json :=
  JObj [("tools_used", JArr [JStr "search_tool"; JStr "wiki_tool"])].

(** [json.loads] on these texts; on any other text of the runs below it
    raises. *)
Definition json_loads (s : string) : option json :=
  if String.eqb s text_flaky then Some plan_flaky
  else if String.eqb s text_sources_only then Some plan_sources_only
  else if String.eqb s text_sources_str then Some plan_sources_str
  else if String.eqb s text_done then Some plan_done
  else if String.eqb s text_topic then Some plan_topic
  else if String.eqb s text_both then Some plan_both
  else None.

(** The same parser when the model's [topic] entries are left out. *)
Definition json_loads_no_topic (s : string) : option json :=
  if String.eqb s text_topic then Some plan_done else json_loads s.

(** A model that answers round [i] with the [i]-th text and fails when
    the texts are used up. *)
Definition scripted (texts : list string) : Llm := λ i _,
  match texts !! Z.to_nat (i - 1) with
  | Some text => Returned text
  | None => Failed "no answer"
  end.

(** A model that gives the same text in every round. *)
Definition constant (text : string) : Llm := λ _ _, Returned text.

(** A new agent whose search works, whose encyclopedia is out of reach
    and whose file can be written. *)
Definition fresh (model : Llm) : Agent.t :=
  Agent.new model
    (λ _ q, Returned ("about " +:+ q))
    (λ _ _, Failed "timed out")
    (λ _ _, Returned EmptyString).

(** A tool whose [run] raises every time. *)
Definition flaky : Tool := λ _ _, Failed "boom".

(** The model never answers. *)
Definition mute : Agent.t := fresh (scripted []).

(** Scenario A: the model at once gives a summary and asks for no tool. *)
Definition one_shot : Agent.t := fresh (constant text_done).

(** Scenario B: two tools in round 1, the summary in round 2. *)
Definition two_rounds : Agent.t := fresh (scripted [text_both; text_done]).

(** The model asks in every round for a tool, added with [add_tool],
    whose [run] raises. *)
Definition with_flaky : Agent.t :=
  add_tool "flaky" flaky (fresh (constant text_flaky)).

(** The model gives a summary in round 1 and only sources in round 2. *)
Definition drifting : Agent.t := fresh (scripted [text_flaky; text_sources_only]).

(** The model gives a string where the schema has a list of sources. *)
Definition bad_sources : Agent.t := fresh (constant text_sources_str).

(** The model adds a topic of its own to its plan. *)
Definition topical : Agent.t := fresh (constant text_topic).

End Scenario.

(** ** Further notions on texts *)

(** An opening brace with a closing brace somewhere after it: what the
    second pattern of the extractor needs. *)
Definition has_brace_span (text : string) : Prop :=
  ∃ a mid b,
    text = a +:+ String Extractor.lbrace mid +:+ String Extractor.rbrace b.

(** The round and the name of every run of a tool. *)
Definition called_in (tr : list Py.event) : list (Z * string) :=
  omap (λ e, match e with Py.ToolRun i n _ => Some (i, n) | _ => None end) tr.

(** ** [main.py]: the batch example *)

Module Main.
Import Json Py Agent.

(** The queries of [batch_research]. *)
Definition queries : list string :=
  ["CALCULATETABLE DAX query"; "Python list comprehension"; "React useEffect hook"].

(** What [print] is given: a fixed text, the line that announces a query
    ([Researching: {query}]) and the line that shows the head of a
    summary ([Summary: {result.summary[:150]}...]). *)
Inductive line : Type :=
  | Text (s : string)
  | Researching (query : string)
  | SummaryOf (head : string).

(** ["="*60] *)
Definition rule : string := String.string_of_list_ascii (repeat "="%char 60).

(** The three lines [batch_research] begins with. *)
Definition header : list line :=
  [Text (String (ascii_of_nat 10) rule); Text "Example 2: Batch Research"; Text rule].

(** [s[:150]] *)
Definition first150 (s : string) : string := String.substring 0 150 s.

(** What has left the function: the lines printed, and the queries
    [agent.research] was called with.  The source keeps no record of the
    calls; it is carried along to state which queries are researched. *)
Record Log : Type := mkLog {
  printed : list line;
  researched : list string;
}.

(** The two lines of a query whose response is [r]. *)
Definition report (r : ResearchResponse.t) : list line :=
  [Researching (ResearchResponse.topic r);
   SummaryOf (first150 (ResearchResponse.summary r))].

(** [ResearchAgent()]: [made] is what building the model, the parser and
    the tools gives, the model or the exception that leaves the
    constructor ([ChatOpenAI] raises when it finds no credentials). *)
Definition ResearchAgent (made : result Llm) (search wikipedia write : Tool) :
    result Agent.t :=
  match made with
  | Ok model => Ok (Agent.new model search wikipedia write)
  | Raise e => Raise e
  end.

Section Batch.
Context (json_loads : string → option json).

(** The standard output: [print out l] is [None] when [print(l)] returns
    with [out] already printed, and [Some e] when it raises [e]. *)
Context (print : list line → line → option exn).

Definition say (l : line) (c : Log) : result unit * Log :=
  match print (printed c) l with
  | None => (Ok (), mkLog (printed c ++ [l]) (researched c))
  | Some e => (Raise e, c)
  end.

Fixpoint say_all (ls : list line) (c : Log) : result unit * Log :=
  match ls with
  | [] => (Ok (), c)
  | l :: ls' =>
      match say l c with
      | (Ok _, c') => say_all ls' c'
      | (Raise e, c') => (Raise e, c')
      end
  end.

(** [for query in queries: print(...); result = agent.research(query,
    verbose=False); results.append(result); print(...)], with the default
    of five rounds.  There is no [try] in the loop: an exception of
    [print] or of [research] ends it and leaves the function. *)
Fixpoint research_each (agent : Agent.t) (qs : list string)
    (results : list ResearchResponse.t) (c : Log) :
    result (list ResearchResponse.t) * Agent.t * Log :=
  match qs with
  | [] => (Ok results, agent, c)
  | query :: qs' =>
      match say (Researching query) c with
      | (Raise e, c1) => (Raise e, agent, c1)
      | (Ok _, c1) =>
          let c2 := mkLog (printed c1) (researched c1 ++ [query]) in
          match Agent.research json_loads agent query 5 with
          | (Raise e, agent') => (Raise e, agent', c2)
          | (Ok result, agent') =>
              match say (SummaryOf (first150 (ResearchResponse.summary result))) c2 with
              | (Raise e, c3) => (Raise e, agent', c3)
              | (Ok _, c3) => research_each agent' qs' (results ++ [result]) c3
              end
          end
      end
  end.

(** [batch_research()]: the header, a new agent, the three queries; the
    list of the responses, or the exception that leaves the function,
    and what was printed and researched. *)
Definition batch_research (made : result Llm) (search wikipedia write : Tool) :
    result (list ResearchResponse.t) * Log :=
  match say_all header (mkLog [] []) with
  | (Raise e, c) => (Raise e, c)
  | (Ok _, c) =>
      match ResearchAgent made search wikipedia write with
      | Raise e => (Raise e, c)
      | Ok agent =>
          match research_each agent queries [] c with
          | (r, _, c') => (r, c')
          end
      end
  end.

End Batch.

End Main.

(** A batch whose second query gets an ill-typed plan. *)
Module BatchScenario.
Import Json Py Agent Scenario.

(** The model gives a summary at once, and for the second query of the
    batch a plan whose sources are a string. *)
Definition picky : Llm := λ _ p,
  if String.eqb (p_query p) "Python list comprehension"
  then Returned text_sources_str else Returned text_done.

(** A standard output that takes every line. *)
Definition stdout : list Main.line → Main.line → option exn := λ _ _, None.

End BatchScenario.

(** ** More concrete runs *)

Module MoreScenario.
Import Json Py Agent Scenario.

(** [{"summary": "S", "tools_used": 5}] *)
Definition text_number : string :=
  "{" +:+ quoted "summary" +:+ ": " +:+ quoted "S" +:+ ", " +:+
  quoted "tools_used" +:+ ": 5}".
Definition plan_number : json :=
  JObj [("summary", JStr "S"); ("tools_used", JInt 5)].

(** [{"summary": "S", "tools_used": "search_tool"}] *)
Definition text_name : string :=
  "{" +:+ quoted "summary" +:+ ": " +:+ quoted "S" +:+ ", " +:+
  quoted "tools_used" +:+ ": " +:+ quoted "search_tool" +:+ "}".
Definition plan_name : json :=
  JObj [("summary", JStr "S"); ("tools_used", JStr "search_tool")].

(** [json.loads] on these texts and on those of [Scenario]. *)
Definition json_loads (s : string) : option json :=
  if String.eqb s text_number then Some plan_number
  else if String.eqb s text_name then Some plan_name
  else Scenario.json_loads s.

(** The model gives a number where the schema has the list of tools. *)
Definition numeric : Agent.t := fresh (constant text_number).

(** The model gives the name of a tool where the schema has a list. *)
Definition bare_name : Agent.t := fresh (constant text_name).

(** An agent that has answered three queries before. *)
Definition seasoned : Agent.t :=
  Agent.mk (constant text_done) (tool_map one_shot)
    [mkItem "q1" "s1" []; mkItem "q2" "s2" []; mkItem "q3" "s3" []].

End MoreScenario.

(** ** Runs with a name that is not registered *)

Module UnknownScenario.
Import Json Py Agent Scenario.

(** [{"summary": "X", "tools_used": ["nope"]}] *)
Definition text_nope : string :=
  "{" +:+ quoted "summary" +:+ ": " +:+ quoted "X" +:+ ", " +:+
  quoted "tools_used" +:+ ": [" +:+ quoted "nope" +:+ "]}".
Definition plan_nope : json :=
  JObj [("summary", JStr "X"); ("tools_used", JArr [JStr "nope"])].

(** The same plan with the name taken out of the request:
    [{"summary": "X", "tools_used": []}] *)
Definition plan_nope_absent : json :=
  JObj [("summary", JStr "X"); ("tools_used", JArr [])].

(** [{"summary": "LATE"}] *)
Definition text_late : string :=
  "{" +:+ quoted "summary" +:+ ": " +:+ quoted "LATE" +:+ "}".
Definition plan_late : json := JObj [("summary", JStr "LATE")].

(** [json.loads] on these texts and on those of [Scenario]. *)
Definition json_loads (s : string) : option json :=
  if String.eqb s text_nope then Some plan_nope
  else if String.eqb s text_late then Some plan_late
  else Scenario.json_loads s.

(** The parser of a run in which the name [nope] is absent from the
    request. *)
Definition json_loads_absent (s : string) : option json :=
  if String.eqb s text_nope then Some plan_nope_absent
  else json_loads s.

(** Two tools in round 1, then a summary with a request for a tool that
    is not registered, then another summary. *)
Definition insistent : Agent.t := fresh (scripted [text_both; text_nope; text_late]).

End UnknownScenario.

(** ** Lemmas on texts *)

Section TextLemmas.
Import Text.

Lemma append_assoc (a b c : string) : (a +:+ b) +:+ c = a +:+ b +:+ c.
Proof. induction a as [|x a IH]; simpl; [done | by f_equal]. Qed.

Lemma append_empty_r (a : string) : a +:+ EmptyString = a.
Proof. induction a as [|x a IH]; simpl; [done | by f_equal]. Qed.

Lemma strip_prefix_app (p r : string) : strip_prefix p (p +:+ r) = Some r.
Proof.
  induction p as [|a p IH]; simpl; [done |].
  by rewrite Ascii.eqb_refl.
Qed.

Lemma strip_prefix_Some (p s r : string) :
  strip_prefix p s = Some r → s = p +:+ r.
Proof.
  revert s. induction p as [|a p IH]; intros s; simpl.
  - by intros [= ->].
  - destruct s as [|b s]; [done |].
    destruct (Ascii.eqb_spec a b) as [->|]; [| done].
    intros H. by rewrite (IH _ H).
Qed.

Lemma skip_spaces_app (ws r : string) :
  all_space ws = true → skip_spaces (ws +:+ r) = skip_spaces r.
Proof.
  induction ws as [|c ws IH]; simpl; [done |].
  intros [Hc Hws]%andb_true_iff. rewrite Hc. auto.
Qed.

Lemma skip_spaces_split (s : string) :
  ∃ ws, all_space ws = true ∧ s = ws +:+ skip_spaces s.
Proof.
  induction s as [|c s [ws [Hws Hs]]]; simpl.
  - by exists EmptyString.
  - destruct (is_space c) eqn:Hc.
    + exists (String c ws). simpl. rewrite Hc, Hws. split; [done |]. by rewrite <- Hs.
    + by exists EmptyString.
Qed.

Lemma skip_spaces_nonspace (c : ascii) (s : string) :
  is_space c = false → skip_spaces (String c s) = String c s.
Proof. simpl. by intros ->. Qed.

Lemma contains_here (p s : string) :
  is_Some (strip_prefix p s) → contains p s = true.
Proof. intros [r Hr]. destruct s; simpl in *; by rewrite Hr. Qed.


Lemma contains_spec (p s : string) :
  contains p s = true ↔ ∃ a b, s = a +:+ p +:+ b.
Proof.
  split.
  - induction s as [|c s IH]; simpl.
    + destruct (strip_prefix p EmptyString) as [r|] eqn:Hr; [| done].
      intros _. exists EmptyString, r. simpl. by apply strip_prefix_Some.
    + destruct (strip_prefix p (String c s)) as [r|] eqn:Hr.
      * intros _. exists EmptyString, r. simpl. by apply strip_prefix_Some.
      * intros (a & b & ->)%IH. by exists (String c a), b.
  - intros (a & b & ->). induction a as [|c a IH]; simpl in *.
    + apply contains_here. rewrite strip_prefix_app. eauto.
    + rewrite IH. by destruct (strip_prefix p _).
Qed.

Lemma occurs_app (c : ascii) (a b : string) :
  occurs c (a +:+ b) = occurs c a || occurs c b.
Proof. induction a as [|x a IH]; simpl; [done |]. by rewrite IH, orb_assoc. Qed.

End TextLemmas.

(** ** Lemmas on the extractor *)

Section ExtractorLemmas.
Import Text Extractor.

Lemma closes_fence_ws (ws post : string) :
  all_space ws = true → closes_fence (ws +:+ fence +:+ post) = true.
Proof. intros H. unfold closes_fence. by rewrite skip_spaces_app. Qed.

Lemma closes_fence_sound (s : string) :
  closes_fence s = true →
  ∃ ws post, all_space ws = true ∧ s = ws +:+ fence +:+ post.
Proof.
  unfold closes_fence.
  destruct (strip_prefix fence (skip_spaces s)) as [post|] eqn:H; [| done].
  intros _. apply strip_prefix_Some in H.
  destruct (skip_spaces_split s) as (ws & Hws & Hs).
  exists ws, post. by rewrite <- H.
Qed.




Lemma lazy_body_sound (s r : string) :
  lazy_body s = Some r →
  ∃ body ws2 post, all_space ws2 = true ∧ r = body +:+ String rbrace EmptyString ∧
                   s = body +:+ String rbrace (ws2 +:+ fence +:+ post).
Proof.
  revert r. induction s as [|c s IH]; intros r; simpl; [done |].
  destruct (Ascii.eqb c rbrace && closes_fence s) eqn:E.
  - apply andb_true_iff in E as [->%Ascii.eqb_eq (ws & post & Hws & ->)%closes_fence_sound].
    intros [= <-]. by exists EmptyString, ws, post.
  - destruct (lazy_body s) as [r'|]; [| done]. intros [= <-].
    destruct (IH r' eq_refl) as (body & ws & post & Hws & -> & ->).
    by exists (String c body), ws, post.
Qed.

Lemma lazy_body_complete (body ws2 post : string) :
  all_space ws2 = true →
  is_Some (lazy_body (body +:+ String rbrace (ws2 +:+ fence +:+ post))).
Proof.
  intros Hws. induction body as [|c body IH]; cbn [lazy_body String.append].
  - rewrite Ascii.eqb_refl, closes_fence_ws by done. eauto.
  - destruct (Ascii.eqb c rbrace && closes_fence _); [eauto |].
    destruct IH as [r ->]. simpl. eauto.
Qed.

Lemma no_label_before_brace (ws rest : string) :
  all_space ws = true →
  strip_prefix "json" (ws +:+ String lbrace rest) = None.
Proof.
  destruct ws as [|c ws]; simpl; [done |].
  intros [Hc _]%andb_true_iff.
  by destruct (Ascii.eqb_spec "j" c) as [<-|].
Qed.

(** The first pattern on a block that starts at the front of the text. *)
Lemma match_fenced_block (label ws1 body ws2 post : string) :
  label = EmptyString ∨ label = "json" → all_space ws1 = true →
  match_fenced (fence +:+ label +:+ ws1 +:+ String lbrace body +:+
                String rbrace ws2 +:+ fence +:+ post)
  = String lbrace <$> lazy_body (body +:+ String rbrace (ws2 +:+ fence +:+ post)).
Proof.
  intros Hl Hws. unfold match_fenced. rewrite strip_prefix_app.
  cbn [mbind option_bind String.append].
  destruct Hl as [-> | ->].
  - cbn [String.append]. rewrite no_label_before_brace by done. cbn [from_option id].
    rewrite skip_spaces_app, skip_spaces_nonspace by done.
    by rewrite Ascii.eqb_refl.
  - rewrite strip_prefix_app. cbn [from_option id].
    rewrite skip_spaces_app, skip_spaces_nonspace by done.
    by rewrite Ascii.eqb_refl.
Qed.

Lemma match_fenced_sound (s g : string) :
  match_fenced s = Some g →
  ∃ label ws1 body ws2 post,
    fenced_block_at EmptyString label ws1 body ws2 post s ∧
    g = String lbrace body +:+ String rbrace EmptyString.
Proof.
  unfold match_fenced.
  destruct (strip_prefix fence s) as [s1|] eqn:H1; [| done].
  cbn [mbind option_bind]. apply strip_prefix_Some in H1 as ->.
  assert (∃ label s2, (label = EmptyString ∨ label = "json") ∧ s1 = label +:+ s2 ∧
                      default s1 (strip_prefix "json" s1) = s2)
    as (label & s2 & Hl & Hs1 & Hd).
  { destruct (strip_prefix "json" s1) as [r|] eqn:H2.
    - exists "json", r. split_and!; [by right | by apply strip_prefix_Some | done].
    - exists EmptyString, s1. by split_and!; [left | |]. }
  rewrite Hd. subst s1. clear Hd.
  destruct (skip_spaces_split s2) as (ws1 & Hws1 & Hs2).
  destruct (skip_spaces s2) as [|c s3]; [done |].
  destruct (Ascii.eqb_spec c lbrace) as [->|]; [| done].
  destruct (lazy_body s3) as [r|] eqn:Hr; [| done]. intros [= <-].
  destruct (lazy_body_sound _ _ Hr) as (body & ws2 & post & Hws2 & -> & ->).
  exists label, ws1, body, ws2, post. split; [| done].
  unfold fenced_block_at. split_and!; try done.
  simpl. by rewrite Hs2.
Qed.

Lemma search_fenced_sound (s g : string) :
  search_fenced s = Some g →
  ∃ pre label ws1 body ws2 post,
    fenced_block_at pre label ws1 body ws2 post s ∧
    g = String lbrace body +:+ String rbrace EmptyString.
Proof.
  assert (∀ s g, match_fenced s = Some g →
    ∃ pre label ws1 body ws2 post,
      fenced_block_at pre label ws1 body ws2 post s ∧
      g = String lbrace body +:+ String rbrace EmptyString) as Hhere.
  { intros s' g' (label & ws1 & body & ws2 & post & ? & ?)%match_fenced_sound.
    by exists EmptyString, label, ws1, body, ws2, post. }
  induction s as [|c s IH]; cbn [search_fenced].
  - destruct (match_fenced EmptyString) eqn:E; [| done].
    intros [= <-]. by apply Hhere.
  - destruct (match_fenced (String c s)) eqn:E.
    + intros [= <-]. by apply Hhere.
    + intros (pre & label & ws1 & body & ws2 & post & (Hl & H1 & H2 & ->) & ->)%IH.
      exists (String c pre), label, ws1, body, ws2, post. by split.
Qed.

Lemma search_fenced_app (pre s : string) :
  is_Some (match_fenced s) → is_Some (search_fenced (pre +:+ s)).
Proof.
  intros [g Hg]. induction pre as [|c pre IH]; cbn [String.append search_fenced].
  - destruct s; cbn [search_fenced]; rewrite Hg; eauto.
  - destruct (match_fenced (String c (pre +:+ s))); eauto.
Qed.

Lemma search_fenced_complete (s : string) :
  has_fenced_block s → is_Some (search_fenced s).
Proof.
  intros (pre & label & ws1 & body & ws2 & post & Hl & H1 & H2 & ->).
  apply search_fenced_app. rewrite match_fenced_block by done.
  destruct (lazy_body_complete body ws2 post H2) as [r ->]. simpl. eauto.
Qed.

Lemma search_fenced_None (s : string) :
  search_fenced s = None ↔ ¬ has_fenced_block s.
Proof.
  split.
  - intros H [g Hg]%search_fenced_complete. congruence.
  - intros H. destruct (search_fenced s) as [g|] eqn:E; [| done].
    destruct H. apply search_fenced_sound in E
      as (pre & label & ws1 & body & ws2 & post & ? & _).
    by exists pre, label, ws1, body, ws2, post.
Qed.


Lemma greedy_body_None (b : string) :
  occurs rbrace b = false → greedy_body b = None.
Proof.
  induction b as [|c b IH]; simpl; [done |].
  intros [Hc Hb]%orb_false_iff. rewrite IH by done.
  rewrite Ascii.eqb_sym. by rewrite Hc.
Qed.

Lemma greedy_body_last (mid b : string) :
  occurs rbrace b = false →
  greedy_body (mid +:+ String rbrace b) = Some (mid +:+ String rbrace EmptyString).
Proof.
  intros Hb. induction mid as [|c mid IH]; simpl.
  - by rewrite greedy_body_None.
  - by rewrite IH.
Qed.

Lemma search_braces_first (a mid b : string) :
  occurs lbrace a = false → occurs rbrace b = false →
  search_braces (a +:+ String lbrace (mid +:+ String rbrace b))
  = Some (String lbrace (mid +:+ String rbrace EmptyString)).
Proof.
  intros Ha Hb. induction a as [|c a IH]; simpl.
  - by rewrite greedy_body_last.
  - apply orb_false_iff in Ha as [Hc Ha]. rewrite Ascii.eqb_sym, Hc. by apply IH.
Qed.



End ExtractorLemmas.

(** ** Lemmas on the loop *)

Section LoopLemmas.
Import Json Py Agent.
Context (json_loads : string → option json).
Context (self : Agent.t) (query : string).

Local Abbreviation round_body := (Agent.round_body json_loads self query).
Local Abbreviation run_tool := (Agent.run_tool self query).
Local Abbreviation rounds := (Agent.rounds json_loads self query).
Local Abbreviation prompt_of := (Agent.prompt_of self query).
Local Abbreviation tool_step := (tool_step self query).
Local Abbreviation step := (step json_loads self query).
Local Abbreviation after_rounds := (after_rounds json_loads self query).

Lemma round_body_unfold (i : Z) (w : World) :
  round_body i w =
  match llm self i (prompt_of (session w)) with
  | Failed d => (Raise (Failure d), asked i w)
  | Returned text =>
      match json_loads (Extractor._extract_json text) with
      | None => (Raise JSONDecodeError, asked i w)
      | Some (JObj items) =>
          let w2 := mkWorld (applied items (session w)) (trace (asked i w)) in
          if stops items (session w) then (Ok Break, w2)
          else
            match py_iter (requested items) with
            | Raise e => (Raise e, w2)
            | Ok l =>
                match for_each (run_tool i) l w2 with
                | (Ok _, w3) => (Ok Next, w3)
                | (Raise e, w3) => (Raise e, w3)
                end
            end
      | Some _ => (Raise AttributeError, asked i w)
      end
  end.
Proof.
  unfold Agent.round_body, mbind, M_bind, get_session, emit, lift, modify, loads, asked.
  cbn [session trace].
  destruct (llm self i _) as [text|d]; cbn [of_outcome]; [| done].
  destruct (json_loads _) as [plan|]; [| done].
  destruct plan as [| | | | |l|items]; cbn [plan_get]; try done.
  unfold stops, applied, requested.
  cbn [session trace set_summary set_sources summary tools_used].
  destruct (_ && _ && _); [done |].
  destruct (py_iter _) as [l|e]; [| done].
  unfold mret, M_ret. by destruct (for_each _ _ _) as [[[]|e] w3].
Qed.

Lemma run_tool_unfold (i : Z) (tool_name : json) (w : World) :
  run_tool i tool_name w =
  match tool_name with
  | JStr name =>
      match tool_map self !! name, tool_results (session w) !! name with
      | Some tool, None =>
          (match tool i query with Returned _ => Ok () | Failed d => Raise (Failure d) end,
           called i name (tool i query) w)
      | _, _ => (Ok (), w)
      end
  | JArr _ | JObj _ => (Raise TypeError, w)
  | _ => (Ok (), w)
  end.
Proof.
  destruct tool_name; try done.
  unfold Agent.run_tool, mbind, M_bind, get_session, emit, lift, modify, called.
  cbn [session trace].
  destruct (tool_map self !! s) as [tool|]; [| done].
  destruct (tool_results (session w) !! s); [done |].
  by destruct (tool i query).
Qed.

Lemma run_tool_steps (i : Z) (tool_name : json) (w : World) :
  rtc (tool_step i) w (run_tool i tool_name w).2.
Proof.
  rewrite run_tool_unfold. destruct tool_name; try done.
  destruct (tool_map self !! s) as [tool|] eqn:Ht; [| done].
  destruct (tool_results (session w) !! s) eqn:Hr; [done |].
  apply rtc_once. by apply tool_step_run.
Qed.

Lemma for_each_steps (i : Z) (l : list json) (w : World) :
  rtc (tool_step i) w (for_each (run_tool i) l w).2.
Proof.
  revert w. induction l as [|x l IH]; intros w; [done |].
  cbn [for_each]. unfold mbind, M_bind.
  pose proof (run_tool_steps i x w) as Hx.
  destruct (run_tool i x w) as [[[]|e] w1]; [| done].
  etrans; [exact Hx | apply IH].
Qed.

Lemma round_body_steps (i : Z) (w : World) :
  rtc (step i) (asked i w) (round_body i w).2.
Proof.
  rewrite round_body_unfold.
  destruct (llm self i _) as [text|d] eqn:Ho; [| done].
  destruct (json_loads _) as [plan|] eqn:Hp; [| done].
  destruct plan as [| | | | |l|items]; try done.
  assert (step i (asked i w) (mkWorld (applied items (session w)) (trace (asked i w))))
    as Hs by (by eapply (step_plan json_loads self query i (asked i w))).
  cbv zeta. destruct (stops items (session w)); [by apply rtc_once |].
  destruct (py_iter _) as [l|e]; [| by apply rtc_once].
  pose proof (for_each_steps i l (mkWorld (applied items (session w)) (trace (asked i w)))) as Hl.
  assert (rtc (step i) (mkWorld (applied items (session w)) (trace (asked i w)))
            (for_each (run_tool i) l (mkWorld (applied items (session w)) (trace (asked i w)))).2)
    as Hl'.
  { eapply rtc_subrel; [| exact Hl]. intros ??. apply step_tool. }
  destruct (for_each _ _ _) as [[[]|e] w3]; by eapply rtc_l.
Qed.

Lemma rounds_after (its : list Z) (w : World) :
  after_rounds w → after_rounds (rounds its w).
Proof.
  revert w. induction its as [|i its IH]; intros w Hw; [done |].
  cbn [Agent.rounds]. pose proof (after_round json_loads self query i w Hw) as H1.
  destruct (round_body i w) as [[[]|e] w1]; auto.
Qed.

Lemma research_loop_after (max_iterations : Z) :
  after_rounds (Agent.research_loop json_loads self query max_iterations).
Proof. apply rounds_after, after_none. Qed.

Lemma steps_preserve (P : World → Prop) (i : Z) (w1 w2 : World) :
  (∀ w w', P w → step i w w' → P w') →
  rtc (step i) w1 w2 → P w1 → P w2.
Proof. intros Hstep Hs. induction Hs; eauto. Qed.

(** An invariant of the steps holds at the end of every round. *)
Lemma after_rounds_ind_steps (P : World → Prop) :
  P (Agent.initial query) →
  (∀ i w, P w → P (asked i w)) →
  (∀ i w w', P w → step i w w' → P w') →
  ∀ w, after_rounds w → P w.
Proof.
  intros H0 Hask Hstep w Hw. induction Hw as [|i w Hw IH]; [done |].
  eapply steps_preserve; [apply Hstep | apply round_body_steps | by apply Hask].
Qed.

End LoopLemmas.

(** ** Invariants of the rounds *)

Section Invariants.
Import Json Py Agent Trace.
Context (json_loads : string → option json).
Context (self : Agent.t) (query : string).

Local Abbreviation round_body := (Agent.round_body json_loads self query).
Local Abbreviation rounds := (Agent.rounds json_loads self query).
Local Abbreviation after_rounds := (after_rounds json_loads self query).
Local Abbreviation step := (step json_loads self query).
Local Abbreviation consistent := (consistent self query).

Lemma snoc_split {A : Type} (l pre post : list A) (e x : A) :
  l ++ [e] = pre ++ x :: post →
  (post = [] ∧ e = x ∧ l = pre) ∨ (∃ post', post = post' ++ [e] ∧ l = pre ++ x :: post').
Proof.
  destruct (decide (post = [])) as [->|Hne].
  - intros [-> ->]%app_inj_tail. by left.
  - destruct (exists_last Hne) as (post' & y & ->).
    change (pre ++ x :: post' ++ [y]) with (pre ++ (x :: post') ++ [y]).
    rewrite app_assoc. intros [-> ->]%app_inj_tail. right. by exists post'.
Qed.

Lemma never_again_snoc (tr : list event) (e : event) :
  never_again tr →
  (∀ n, called_names [e] = [n] → n ∉ returned_names tr) →
  never_again (tr ++ [e]).
Proof.
  intros Htr He pre post i n r Hsplit.
  apply snoc_split in Hsplit as [(-> & _ & _) | (post' & -> & ->)].
  - apply not_elem_of_nil.
  - unfold called_names. rewrite omap_app. fold (called_names post') (called_names [e]).
    rewrite elem_of_app. intros [Hin | Hin].
    + by eapply Htr.
    + destruct e as [j|j m o]; cbn in Hin; [by apply elem_of_nil in Hin |].
      apply list_elem_of_singleton in Hin as ->.
      eapply (He m); [done |].
      unfold returned_names. rewrite omap_app. cbn. set_solver.
Qed.

Lemma consistent_initial : consistent (Agent.initial query).
Proof.
  split; cbn; try done.
  - constructor.
  - intros ??? []%elem_of_nil.
  - intros ??? []%elem_of_nil.
  - intros pre post i n r H. by destruct pre.
Qed.

Lemma consistent_asked (i : Z) (w : World) :
  consistent w → consistent (asked i w).
Proof.
  intros [H1 H2 H3 H4 H5 H6 H7]. split; cbn; try done.
  - unfold returned_names in *. rewrite omap_app. cbn. by rewrite app_nil_r.
  - intros j n r [Hin | Hin%list_elem_of_singleton]%elem_of_app; [eauto | done].
  - intros j n o [Hin | Hin%list_elem_of_singleton]%elem_of_app; [eauto | done].
  - apply never_again_snoc; [done |]. by intros n [=].
Qed.

Lemma consistent_step (i : Z) (w w' : World) :
  consistent w → step i w w' → consistent w'.
Proof.
  intros Hc Hs. revert Hc.
  destruct Hs as [w1 items p text Ho Hs | ? ? [w1 name tool Ht Hr]];
    intros [H1 H2 H3 H4 H5 H6 H7].
  - by split.
  - assert (name ∉ tools_used (session w1)) as Hfresh.
    { intros Hin. apply not_elem_of_dom in Hr. apply Hr. rewrite H2.
      by apply elem_of_list_to_set. }
    assert (never_again (trace w1 ++ [ToolRun i name (tool i query)])) as Hnever.
    { apply never_again_snoc; [done |]. intros n [= <-]. by rewrite H3. }
    destruct (tool i query) as [r|d] eqn:Ho; split; cbn; try done.
    + apply NoDup_app. split_and!; [done | | apply NoDup_singleton].
      intros x Hx ->%list_elem_of_singleton. done.
    + rewrite dom_insert_L, H2, list_to_set_app_L. cbn.
      by rewrite (right_id_L ∅ (∪)), (comm_L (∪)).
    + unfold returned_names in *. rewrite omap_app. cbn. by rewrite H3.
    + intros j n r' [Hin | [= -> -> ->]%list_elem_of_singleton]%elem_of_app.
      * rewrite lookup_insert_ne; [eauto |]. intros <-.
        apply H4 in Hin. congruence.
      * apply lookup_insert_eq.
    + intros j n o [Hin | [= -> -> ->]%list_elem_of_singleton]%elem_of_app; eauto.
    + unfold returned_names in *. rewrite omap_app. cbn. by rewrite app_nil_r.
    + intros j n r' [Hin | [=]%list_elem_of_singleton]%elem_of_app. eauto.
    + intros j n o [Hin | [= -> -> ->]%list_elem_of_singleton]%elem_of_app; eauto.
Qed.

Lemma after_rounds_consistent (w : World) : after_rounds w → consistent w.
Proof.
  apply after_rounds_ind_steps.
  - apply consistent_initial.
  - apply consistent_asked.
  - apply consistent_step.
Qed.

End Invariants.

(** ** The extractor's ordered fallback *)

Section ExtractorTheorems.
Import Text Extractor.



End ExtractorTheorems.

(** ** The loop: rounds, failures, unknown tools *)

Section LoopTheorems.
Import Json Py Agent Trace.
Context (json_loads : string → option json).
Context (self : Agent.t) (query : string).

Local Abbreviation round_body := (Agent.round_body json_loads self query).
Local Abbreviation run_tool := (Agent.run_tool self query).
Local Abbreviation rounds := (Agent.rounds json_loads self query).
Local Abbreviation prompt_of := (Agent.prompt_of self query).
Local Abbreviation research_loop := (Agent.research_loop json_loads self query).
Local Abbreviation research := (Agent.research json_loads self query).
Local Abbreviation after_rounds := (after_rounds json_loads self query).
Local Abbreviation step := (step json_loads self query).
Local Abbreviation tool_step := (tool_step self query).

Lemma llm_rounds_app (tr1 tr2 : list event) :
  llm_rounds (tr1 ++ tr2) = llm_rounds tr1 ++ llm_rounds tr2.
Proof. apply omap_app. Qed.

Lemma llm_rounds_step (i : Z) (w w' : World) :
  step i w w' → llm_rounds (trace w') = llm_rounds (trace w).
Proof.
  intros [w1 items p text Ho Hs | ? ? [w1 name tool Ht Hr]]; [done |].
  unfold called. destruct (tool i query); cbn [trace];
    rewrite llm_rounds_app; cbn; by rewrite app_nil_r.
Qed.

(** A round calls the model once. *)
Lemma llm_rounds_round (i : Z) (w : World) :
  llm_rounds (trace (round_body i w).2) = llm_rounds (trace w) ++ [i].
Proof.
  eapply (steps_preserve json_loads self query
            (λ w', llm_rounds (trace w') = llm_rounds (trace w) ++ [i]));
    [| apply round_body_steps |].
  - intros w1 w2 <- Hs. by apply llm_rounds_step in Hs.
  - unfold asked. cbn [trace]. by rewrite llm_rounds_app.
Qed.

Lemma llm_rounds_rounds (its : list Z) (w : World) :
  ∃ n : nat, n ≤ length its ∧
    llm_rounds (trace (rounds its w)) = llm_rounds (trace w) ++ take n its.
Proof.
  revert w. induction its as [|i its IH]; intros w.
  - exists 0. cbn. by rewrite app_nil_r.
  - cbn [Agent.rounds]. pose proof (llm_rounds_round i w) as Hi.
    destruct (round_body i w) as [[[]|e] w1]; cbn [snd] in Hi.
    + exists 1. cbn. split; [lia | done].
    + destruct (IH w1) as (n & Hn & ->). exists (S n). cbn.
      rewrite Hi, <- app_assoc. split; [lia | done].
    + destruct (IH w1) as (n & Hn & ->). exists (S n). cbn.
      rewrite Hi, <- app_assoc. split; [lia | done].
Qed.

Lemma length_py_range (lo hi : Z) : length (py_range lo hi) = Z.to_nat (hi - lo).
Proof. unfold py_range. by rewrite length_fmap, length_seq. Qed.

Lemma py_range_cons (lo hi : Z) :
  (lo < hi)%Z → py_range lo hi = lo :: py_range (lo + 1) hi.
Proof.
  intros H. unfold py_range.
  replace (Z.to_nat (hi - lo)) with (S (Z.to_nat (hi - (lo + 1)))) by lia.
  cbn [seq fmap list_fmap]. f_equal; [lia |].
  rewrite <- seq_shift, <- list_fmap_compose.
  apply list_fmap_ext. intros _ k _. cbn. lia.
Qed.

(** C1.  Whatever the query, the cap, the model and the tools do, the
    loop calls the model in rounds 1, 2, ..., n for some n that is at
    most [max_iterations] (no round at all when the cap is zero or
    negative), and the call then ends with the response built from the
    session the loop leaves, or with the exception of that
    construction. *)
Theorem research_rounds_bounded (max_iterations : Z) :
  ∃ n : nat,
    (Z.of_nat n ≤ Z.max 0 max_iterations)%Z
    ∧ llm_rounds (trace (research_loop max_iterations))
      = take n (py_range 1 (max_iterations + 1))
    ∧ length (llm_rounds (trace (research_loop max_iterations))) = n
    ∧ (research max_iterations).1
      = respond (session (research_loop max_iterations)).
Proof.
  unfold Agent.research_loop.
  destruct (llm_rounds_rounds (py_range 1 (max_iterations + 1)) (initial query))
    as (n & Hn & Hr).
  rewrite length_py_range in Hn. exists n. split_and!.
  - lia.
  - by rewrite Hr.
  - rewrite Hr. cbn. rewrite length_take, length_py_range. lia.
  - unfold Agent.research, Agent.research_loop. by destruct (respond _).
Qed.

(** C8.  A round in which the model's call fails, or in which the
    extracted text does not parse, or parses to something that is no
    object, raises; the loop goes on with the next round, and the
    session is what it was before the round. *)
Theorem failed_round_keeps_session (i : Z) (w : World) (rest : list Z) :
  (∃ d, llm self i (prompt_of (session w)) = Failed d)
  ∨ (∃ text, llm self i (prompt_of (session w)) = Returned text ∧
             json_loads (Extractor._extract_json text) = None)
  ∨ (∃ text plan, llm self i (prompt_of (session w)) = Returned text ∧
                  json_loads (Extractor._extract_json text) = Some plan ∧
                  ∀ items, plan ≠ JObj items) →
  session (round_body i w).2 = session w
  ∧ (∃ e, (round_body i w).1 = Raise e)
  ∧ rounds (i :: rest) w = rounds rest (round_body i w).2.
Proof.
  intros H. cbn [Agent.rounds]. rewrite round_body_unfold.
  destruct H as [[d ->] | [(text & -> & ->) | (text & plan & -> & -> & Hplan)]].
  - cbn. eauto.
  - cbn. eauto.
  - destruct plan; cbn; eauto. by destruct (Hplan items).
Qed.

Lemma for_each_app {A : Type} (body : A → M unit) (l1 l2 : list A) (w : World) :
  for_each body (l1 ++ l2) w =
  match for_each body l1 w with
  | (Ok _, w1) => for_each body l2 w1
  | (Raise e, w1) => (Raise e, w1)
  end.
Proof.
  revert w. induction l1 as [|x l1 IH]; intros w; [done |].
  cbn [for_each app]. unfold mbind, M_bind.
  destruct (body x w) as [[[]|e] w1]; [apply IH | done].
Qed.

Lemma elem_of_returned_names (n : string) (tr : list event) :
  n ∈ returned_names tr ↔ ∃ i r, ToolRun i n (Returned r) ∈ tr.
Proof.
  unfold returned_names. rewrite list_elem_of_omap. split.
  - intros ([j|j m [r|d]] & Hin & [= <-]). eauto.
  - intros (i & r & Hin). eauto.
Qed.

(** Every tool used is registered. *)
Lemma tools_used_registered (w : World) (n : string) :
  after_rounds w → n ∈ tools_used (session w) → is_Some (tool_map self !! n).
Proof.
  intros Hc%after_rounds_consistent Hn.
  rewrite <- (c_returned _ _ _ Hc) in Hn.
  apply elem_of_returned_names in Hn as (i & r & Hin).
  destruct (c_genuine _ _ _ Hc _ _ _ Hin) as (tool & Ht & _). by exists tool.
Qed.

(** C9, as the code has it.  A requested name that is not in the
    registry is passed over: its turn of the tool loop raises nothing and
    leaves the world as it is, the tool loop on a request with the name
    does what it does on the request without it, and a round on a plan
    with the name leaves the world that the round on the plan without it
    leaves; it also ends in the same way when the plan asks for
    something else as well.  A request made of unregistered names only
    is still a request: the stop test, which comes before the names are
    looked up, does not fire, and the round ends with the loop going on.
    At the end of every round the name is in neither [tools_used] nor
    [tool_results]. *)
Theorem unknown_tool_dropped (i : Z) (u : string) (l1 l2 : list json) (w : World) :
  tool_map self !! u = None →
  run_tool i (JStr u) w = (Ok (), w)
  ∧ for_each (run_tool i) (l1 ++ (JStr u :: l2)) w = for_each (run_tool i) (l1 ++ l2) w
  ∧ (∀ (json_loads' : string → option json) text items items',
       llm self i (prompt_of (session w)) = Returned text →
       json_loads (Extractor._extract_json text) = Some (JObj items) →
       json_loads' (Extractor._extract_json text) = Some (JObj items') →
       dict_lookup "summary" items' = dict_lookup "summary" items →
       dict_lookup "sources" items' = dict_lookup "sources" items →
       dict_lookup "tools_used" items = Some (JArr (l1 ++ (JStr u :: l2))) →
       dict_lookup "tools_used" items' = Some (JArr (l1 ++ l2)) →
       (Agent.round_body json_loads' self query i w).2 = (round_body i w).2
       ∧ (l1 ++ l2 ≠ [] →
          Agent.round_body json_loads' self query i w = round_body i w))
  ∧ (∀ text items (us : list string),
       llm self i (prompt_of (session w)) = Returned text →
       json_loads (Extractor._extract_json text) = Some (JObj items) →
       dict_lookup "tools_used" items = Some (JArr (JStr <$> us)) →
       us ≠ [] →
       (∀ v, v ∈ us → tool_map self !! v = None) →
       round_body i w
       = (Ok Next, mkWorld (applied items (session w)) (trace w ++ [LlmInvoked i])))
  ∧ (after_rounds w →
       (u ∉ tools_used (session w)) ∧ tool_results (session w) !! u = None).
Proof.
  intros Hu.
  assert (∀ w', run_tool i (JStr u) w' = (Ok (), w')) as Hrun.
  { intros w'. rewrite run_tool_unfold. by rewrite Hu. }
  assert (∀ w', for_each (run_tool i) (l1 ++ (JStr u :: l2)) w'
                = for_each (run_tool i) (l1 ++ l2) w') as Hloop.
  { intros w'. rewrite !for_each_app.
    destruct (for_each (run_tool i) l1 w') as [[[]|e] w1]; [| done].
    cbn [for_each]. unfold mbind, M_bind. by rewrite Hrun. }
  split_and!; [done | done | | |].
  - intros json_loads' text items items' Ho Hp Hp' Hsum Hsrc Hreq Hreq'.
    rewrite !round_body_unfold, Ho, Hp, Hp'. cbv zeta. unfold stops.
    assert (applied items' (session w) = applied items (session w)) as ->.
    { unfold applied. by rewrite Hsum, Hsrc. }
    unfold requested. rewrite Hreq, Hreq'. cbn [default from_option id].
    assert (truthy (JArr (l1 ++ (JStr u :: l2))) = true) as ->
      by by destruct l1.
    cbn [negb andb py_iter]. rewrite Hloop.
    destruct (l1 ++ l2) as [|x l] eqn:El.
    + cbn [truthy negb andb for_each]. unfold mret, M_ret.
      by destruct (truthy (summary (applied items (session w)))),
           (2 <=? length (tools_used (session w)))%nat.
    + by cbn [truthy negb andb].
  - intros text items us Ho Hp Hreq Hne Hus.
    rewrite round_body_unfold, Ho, Hp. cbv zeta.
    unfold stops, requested. rewrite Hreq. cbn [default from_option id].
    assert (truthy (JArr (JStr <$> us)) = true) as -> by by destruct us.
    cbn [negb andb py_iter].
    assert (∀ w', for_each (run_tool i) (JStr <$> us) w' = (Ok (), w')) as ->; [| done].
    clear Hreq Hne. induction us as [|v us IH]; intros w'; [done |].
    cbn [fmap list_fmap for_each]. unfold mbind, M_bind.
    rewrite run_tool_unfold, (Hus v) by by left.
    apply IH. intros v' Hv'. apply Hus. by right.
  - intros Hw.
    assert (u ∉ tools_used (session w)) as Hnot.
    { intros [tool Ht]%(tools_used_registered w); [congruence | done]. }
    split; [done |]. apply not_elem_of_dom.
    rewrite (c_keys _ _ _ (after_rounds_consistent _ _ _ _ Hw)).
    by rewrite elem_of_list_to_set.
Qed.

End LoopTheorems.

(** ** The session: convergence, the plan, the tools *)

Section SessionTheorems.
Import Json Py Agent Trace.
Context (json_loads : string → option json).
Context (self : Agent.t) (query : string).

Local Abbreviation round_body := (Agent.round_body json_loads self query).
Local Abbreviation run_tool := (Agent.run_tool self query).
Local Abbreviation rounds := (Agent.rounds json_loads self query).
Local Abbreviation prompt_of := (Agent.prompt_of self query).
Local Abbreviation research_loop := (Agent.research_loop json_loads self query).
Local Abbreviation after_rounds := (after_rounds json_loads self query).
Local Abbreviation tool_step := (tool_step self query).

(** C3.  At the end of any round, the next round [i] stops the loop
    exactly when the model's text parses to an object whose request for
    tools is empty (false in a condition), the summary of the session
    with the plan applied is not empty, and the session has used at
    least two distinct tools.  A request that is a list is empty when the
    list is, and so is a request that is left out.  A round that stops
    ends the loop; any other is followed by the next one.  With no tool
    used so far a round never stops the loop. *)
Theorem converges_exactly_when (i : Z) (w : World) :
  after_rounds w →
  ((round_body i w).1 = Ok Break ↔
     ∃ text items,
       llm self i (prompt_of (session w)) = Returned text
       ∧ json_loads (Extractor._extract_json text) = Some (JObj items)
       ∧ truthy (requested items) = false
       ∧ truthy (summary (applied items (session w))) = true
       ∧ 2 ≤ size (list_to_set (tools_used (session w)) : gset string))
  ∧ (∀ items,
       match dict_lookup "tools_used" items with
       | Some (JArr l) => truthy (requested items) = false ↔ l = []
       | Some _ => True
       | None => truthy (requested items) = false
       end)
  ∧ (∀ rest, (round_body i w).1 = Ok Break →
             rounds (i :: rest) w = (round_body i w).2)
  ∧ (∀ rest, (round_body i w).1 ≠ Ok Break →
             rounds (i :: rest) w = rounds rest (round_body i w).2)
  ∧ (tools_used (session w) = [] → (round_body i w).1 ≠ Ok Break).
Proof.
  intros Hw. pose proof (after_rounds_consistent _ _ _ _ Hw) as Hc.
  assert (size (list_to_set (tools_used (session w)) : gset string)
          = length (tools_used (session w))) as Hsize
    by (apply size_list_to_set, Hc).
  assert ((round_body i w).1 = Ok Break ↔
     ∃ text items,
       llm self i (prompt_of (session w)) = Returned text
       ∧ json_loads (Extractor._extract_json text) = Some (JObj items)
       ∧ truthy (requested items) = false
       ∧ truthy (summary (applied items (session w))) = true
       ∧ 2 ≤ size (list_to_set (tools_used (session w)) : gset string)) as Hiff.
  { rewrite Hsize, round_body_unfold. split.
    - destruct (llm self i _) as [text|d] eqn:Ho; [| done].
      destruct (json_loads _) as [plan|] eqn:Hp; [| done].
      destruct plan as [| | | | |l|items]; try done. cbv zeta.
      destruct (stops items (session w)) eqn:Hstop.
      + intros _. exists text, items. unfold stops in Hstop.
        apply andb_true_iff in Hstop as [[H1 H2]%andb_true_iff H3].
        apply negb_true_iff in H1. apply Nat.leb_le in H3. done.
      + destruct (py_iter _); [| done]. by destruct (for_each _ _ _) as [[[]|?] ?].
    - intros (text & items & -> & -> & H1 & H2 & H3). cbv zeta.
      unfold stops. rewrite H1, H2. cbn [negb andb].
      apply Nat.leb_le in H3. by rewrite H3. }
  split_and!; [done | | | |].
  - intros items. unfold requested.
    destruct (dict_lookup "tools_used" items) as [[| | | | |l|]|]; try done.
    cbn. by destruct l.
  - intros rest Hb. cbn [Agent.rounds].
    by destruct (round_body i w) as [[[]|e] w1]; cbn in *.
  - intros rest Hb. cbn [Agent.rounds].
    by destruct (round_body i w) as [[[]|e] w1]; cbn in *.
  - intros Hnone [text [items (_ & _ & _ & _ & H)]]%Hiff.
    rewrite Hsize, Hnone in H. cbn in H. lia.
Qed.

Lemma tool_step_keeps (i : Z) (w w' : World) :
  tool_step i w w' →
  summary (session w') = summary (session w)
  ∧ sources (session w') = sources (session w).
Proof. intros [w1 name tool Ht Hr]. unfold called. by destruct (tool i query). Qed.

Lemma tool_steps_keep (i : Z) (w w' : World) :
  rtc (tool_step i) w w' →
  summary (session w') = summary (session w)
  ∧ sources (session w') = sources (session w).
Proof.
  induction 1 as [|w1 w2 w3 H12 _ [IH1 IH2]]; [done |].
  apply tool_step_keeps in H12 as [H1 H2]. split; congruence.
Qed.

(** C6, as the code has it.  In a round whose text parses to an object,
    the session's summary becomes the plan's [summary] entry when the
    plan has one and stays what it was when it has none; the same holds
    for the sources.  This is so whether the round then stops the loop,
    runs tools or raises. *)
Theorem plan_applied_with_defaults (i : Z) (w : World) (text : string)
    (items : list (string * json)) :
  llm self i (prompt_of (session w)) = Returned text →
  json_loads (Extractor._extract_json text) = Some (JObj items) →
  summary (session (round_body i w).2)
    = default (summary (session w)) (dict_lookup "summary" items)
  ∧ sources (session (round_body i w).2)
    = default (sources (session w)) (dict_lookup "sources" items).
Proof.
  intros Ho Hp. rewrite round_body_unfold, Ho, Hp. cbv zeta.
  destruct (stops items (session w)); [done |].
  destruct (py_iter _) as [l|e]; [| done].
  pose proof (for_each_steps self query i l
    (mkWorld (applied items (session w)) (trace (asked i w)))) as Hl.
  apply tool_steps_keep in Hl as [H1 H2].
  by destruct (for_each _ _ _) as [[[]|e] w3].
Qed.

Lemma called_names_no_failure (tr : list event) :
  (∀ i n d, ToolRun i n (Failed d) ∉ tr) → called_names tr = returned_names tr.
Proof.
  induction tr as [|e tr IH]; [done |]. intros H.
  assert (called_names tr = returned_names tr) as IH'.
  { apply IH. intros i n d Hin. apply (H i n d). by right. }
  destruct e as [j|j m [r|d]]; cbn; [done | by f_equal |].
  destruct (H j m d). by left.
Qed.

(** C2, as the code has it.  At the end of every round [tools_used] has
    no duplicate, the keys of [tool_results] are the names in
    [tools_used], these are the tools whose run returned, in that order,
    and a tool that has returned is not run again.  When no run has
    raised, no tool has run twice. *)
Theorem tools_recorded_once (w : World) :
  after_rounds w →
  NoDup (tools_used (session w))
  ∧ dom (tool_results (session w)) = list_to_set (tools_used (session w))
  ∧ returned_names (trace w) = tools_used (session w)
  ∧ never_again (trace w)
  ∧ ((∀ i n d, ToolRun i n (Failed d) ∉ trace w) → NoDup (called_names (trace w))).
Proof.
  intros [H1 H2 H3 H4 H5 H6 H7]%after_rounds_consistent. split_and!; try done.
  intros ->%called_names_no_failure. by rewrite H3.
Qed.

(** C5, as the code has it.  With the registry of a new agent, every run
    of a tool returns; the text it returns is stored under the tool's
    name, the name is once in [tools_used], and no tool runs twice.
    When the back end of the tool failed, the text is the tool's error
    prefix followed by the failure's description. *)
Theorem builtin_failure_stored (search wikipedia write : Tool)
    (w : World) (i : Z) (n : string) (o : outcome) :
  tool_map self = _init_tools search wikipedia write →
  after_rounds w →
  ToolRun i n o ∈ trace w →
  ∃ r, o = Returned r
    ∧ tool_results (session w) !! n = Some r
    ∧ n ∈ tools_used (session w)
    ∧ NoDup (tools_used (session w))
    ∧ NoDup (called_names (trace w))
    ∧ (n = "search_tool" → ∀ d, search i query = Failed d →
         r = "Search error: " +:+ d)
    ∧ (n = "wiki_tool" → ∀ d, wikipedia i query = Failed d →
         r = "Wikipedia error: " +:+ d)
    ∧ (n = "save_tool" → ∀ d,
         write i (query +:+ String (ascii_of_nat 10) EmptyString) = Failed d →
         r = "Save error: " +:+ d).
Proof.
  intros Hreg Hw Hin. pose proof (after_rounds_consistent _ _ _ _ Hw) as Hc.
  assert (∀ j m o', ToolRun j m o' ∈ trace w →
    ∃ r, o' = Returned r
      ∧ (m = "search_tool" → ∀ d, search j query = Failed d → r = "Search error: " +:+ d)
      ∧ (m = "wiki_tool" → ∀ d, wikipedia j query = Failed d → r = "Wikipedia error: " +:+ d)
      ∧ (m = "save_tool" → ∀ d,
           write j (query +:+ String (ascii_of_nat 10) EmptyString) = Failed d →
           r = "Save error: " +:+ d)) as Hret.
  { intros j m o' Hin'.
    destruct (c_genuine _ _ _ Hc _ _ _ Hin') as (tool & Ht & ->).
    rewrite Hreg in Ht. unfold _init_tools in Ht.
    rewrite !lookup_insert in Ht. rewrite lookup_empty in Ht.
    repeat case_decide; simplify_eq.
    - unfold save_tool. destruct (write j _) as [r|d] eqn:E; eexists;
        (split; [done |]); split_and!; try done. by intros _ d' [= <-].
    - unfold wiki_tool. destruct (wikipedia j query) as [r|d] eqn:E; eexists;
        (split; [done |]); split_and!; try done. by intros _ d' [= <-].
    - unfold search_tool. destruct (search j query) as [r|d] eqn:E; eexists;
        (split; [done |]); split_and!; try done. by intros _ d' [= <-]. }
  destruct (Hret _ _ _ Hin) as (r & -> & Hs & Hk & Hv).
  exists r. split_and!; try done.
  - by eapply (c_stored _ _ _ Hc).
  - rewrite <- (c_returned _ _ _ Hc). apply elem_of_returned_names. eauto.
  - apply Hc.
  - rewrite called_names_no_failure.
    + rewrite (c_returned _ _ _ Hc). apply Hc.
    + intros j m d Hin'. by destruct (Hret _ _ _ Hin') as (r' & ? & _).
Qed.

End SessionTheorems.

(** ** The response *)

Section ResponseTheorems.
Import Json Py Agent Trace.
Context (json_loads : string → option json).
Context (self : Agent.t) (query : string).

Local Abbreviation round_body := (Agent.round_body json_loads self query).
Local Abbreviation rounds := (Agent.rounds json_loads self query).
Local Abbreviation research_loop := (Agent.research_loop json_loads self query).
Local Abbreviation research := (Agent.research json_loads self query).
Local Abbreviation after_rounds := (after_rounds json_loads self query).
Local Abbreviation emits_typed := (emits_typed json_loads self).

Lemma after_rounds_typed (w : World) :
  emits_typed → after_rounds w → session_typed w.
Proof.
  intros Hty. apply after_rounds_ind_steps.
  - split; cbn; eauto.
  - by intros i w1 Hw1.
  - intros i w1 w2 Hw1 Hstep. revert Hw1.
    destruct Hstep as [w0 items p text Ho Hp | w0 w0' Hs]; intros [H1 H2].
    + destruct (Hty _ _ _ _ Ho Hp) as [Hs Hl]. split; cbn.
      * destruct (dict_lookup "summary" items); cbn; eauto.
      * destruct (dict_lookup "sources" items); cbn; eauto.
    + apply tool_step_keeps in Hs as [Hs Hl]. unfold session_typed.
      by rewrite Hs, Hl.
Qed.

(** C4, as the code has it.  No failure of a round ends the call: the
    loop runs to its end whatever the model, the parser and the tools
    do, and the call returns exactly when the summary it is left with is
    empty or a string and the sources are empty or a list of strings.
    When the objects the model emits keep to the schema, this is so: the
    call returns a response with its four fields, whose topic is the
    query, whose summary is the session's or, when that is empty, the
    sentinel, and the exchange is added to the history. *)
Theorem research_returns_when_typed (max_iterations : Z) :
  let st := session (research_loop max_iterations) in
  ((∃ r, (research max_iterations).1 = Ok r) ↔
     is_Some (as_str (py_or (summary st) (JStr sentinel)))
     ∧ is_Some (as_str_list (py_or (sources st) (JArr []))))
  ∧ (emits_typed →
     ∃ r,
       research max_iterations
       = (Ok r, Agent.mk (llm self) (tool_map self)
                  (conversation_history self ++
                     [mkItem query (ResearchResponse.summary r)
                             (ResearchResponse.sources r)]))
       ∧ ResearchResponse.topic r = query
       ∧ JStr (ResearchResponse.summary r) = py_or (summary st) (JStr sentinel)
       ∧ (truthy (summary st) = false → ResearchResponse.summary r = sentinel)
       ∧ as_str_list (sources st) = Some (ResearchResponse.sources r)
       ∧ ResearchResponse.tools_used r = tools_used st).
Proof.
  intros st. split.
  - unfold Agent.research. fold st. unfold respond, ResearchResponse.init.
    destruct (as_str (py_or (summary st) _)) as [s|];
      destruct (as_str_list (py_or (sources st) _)) as [l|]; cbn; split;
      try (by intros [r [=]]); try (by intros [[] []]); eauto.
  - intros Hty.
    destruct (after_rounds_typed _ Hty (research_loop_after json_loads self query max_iterations))
      as [[s Hs] [l Hl]].
    fold st in Hs, Hl.
    assert (topic st = query) as Htopic.
    { apply (c_topic self query), after_rounds_consistent with json_loads,
        research_loop_after. }
    destruct (summary st) as [| | | |s'| |] eqn:Es; try done.
    destruct (sources st) as [| | | | |items|] eqn:El; try done.
    cbn in Hs, Hl. injection Hs as ->.
    unfold Agent.research. fold st. unfold respond, ResearchResponse.init.
    rewrite Es, El, Htopic. unfold py_or. cbn [truthy].
    assert (as_str_list (if match items with [] => false | _ :: _ => true end
                         then JArr items else JArr []) = Some l) as ->.
    { destruct items; [| done]. by cbn in *. }
    destruct s as [|c s]; cbn [as_str]; eexists; split_and!; try done.
Qed.

Lemma same_but_topic_refl (a : option json) : same_but_topic a a.
Proof. by destruct a as [[]|]. Qed.

Lemma round_body_same_but_topic (json_loads' : string → option json) (i : Z) (w : World) :
  (∀ s, same_but_topic (json_loads s) (json_loads' s)) →
  Agent.round_body json_loads' self query i w = round_body i w.
Proof.
  intros H. rewrite !round_body_unfold.
  destruct (llm self i _) as [text|d]; [| done].
  specialize (H (Extractor._extract_json text)).
  destruct (json_loads _) as [[| | | | | |x]|], (json_loads' _) as [[| | | | | |y]|];
    cbn in H; try done; try (by simplify_eq).
  unfold stops.
  assert (applied y (session w) = applied x (session w)) as ->.
  { unfold applied. by rewrite (H "summary"), (H "sources"). }
  assert (requested y = requested x) as ->; [| done].
  unfold requested. by rewrite (H "tools_used").
Qed.

Lemma rounds_same_but_topic (json_loads' : string → option json) (its : list Z) (w : World) :
  (∀ s, same_but_topic (json_loads s) (json_loads' s)) →
  Agent.rounds json_loads' self query its w = rounds its w.
Proof.
  intros H. revert w. induction its as [|i its IH]; intros w; [done |].
  cbn [Agent.rounds]. rewrite round_body_same_but_topic by done.
  destruct (round_body i w) as [[[]|e] w1]; auto.
Qed.

(** C10.  The session's topic is the query from the first round to the
    last, the response is built with the query as its topic, so that a
    response that is returned has it; and a [topic] entry in what the
    model emits has no effect on the call: with a parser that differs
    from [json_loads] at most in the [topic] entries of the objects it
    gives, the call gives the same result and leaves the same agent. *)
Theorem topic_is_query (max_iterations : Z) :
  let st := session (research_loop max_iterations) in
  topic st = query
  ∧ (research max_iterations).1
    = ResearchResponse.init query (py_or (summary st) (JStr sentinel))
        (py_or (sources st) (JArr [])) (tools_used st)
  ∧ (∀ r, (research max_iterations).1 = Ok r → ResearchResponse.topic r = query)
  ∧ (∀ json_loads' : string → option json,
       (∀ s, same_but_topic (json_loads s) (json_loads' s)) →
       Agent.research json_loads' self query max_iterations
       = research max_iterations).
Proof.
  intros st.
  assert (topic st = query) as Htopic.
  { apply (c_topic self query), after_rounds_consistent with json_loads,
      research_loop_after. }
  assert ((research max_iterations).1
    = ResearchResponse.init query (py_or (summary st) (JStr sentinel))
        (py_or (sources st) (JArr [])) (tools_used st)) as Hinit.
  { unfold Agent.research. fold st. unfold respond. rewrite Htopic.
    by destruct (ResearchResponse.init _ _ _ _). }
  split_and!; [done | done | |].
  - intros r. rewrite Hinit. unfold ResearchResponse.init.
    destruct (as_str (py_or (summary st) (JStr sentinel))),
      (as_str_list (py_or (sources st) (JArr []))); try done. by intros [= <-].
  - intros json_loads' H. unfold Agent.research, Agent.research_loop.
    by rewrite rounds_same_but_topic.
Qed.

End ResponseTheorems.

(** ** The theorems on concrete runs *)

Section Runs.
Import Json Py Agent Trace Scenario.

Lemma failed_round_keeps_session_witness :
  llm mute 1 (prompt_of mute "q" (session (initial "q"))) = Failed "no answer"
  ∧ session (round_body json_loads mute "q" 1 (initial "q")).2 = session (initial "q")
  ∧ rounds json_loads mute "q" [1; 2]%Z (initial "q")
    = rounds json_loads mute "q" [2]%Z (round_body json_loads mute "q" 1 (initial "q")).2.
Proof.
  split; [reflexivity |].
  destruct (failed_round_keeps_session json_loads mute "q" 1 (initial "q") [2]%Z)
    as (H1 & _ & H3).
  - left. exists "no answer". reflexivity.
  - split; [exact H1 | exact H3].
Defined.

Lemma unknown_tool_dropped_witness :
  tool_map one_shot !! "bogus" = None
  ∧ run_tool one_shot "q" 1 (JStr "bogus") (initial "q") = (Ok (), initial "q")
  ∧ for_each (run_tool one_shot "q" 1)
      ([JStr "search_tool"] ++ (JStr "bogus" :: [JStr "wiki_tool"])) (initial "q")
    = for_each (run_tool one_shot "q" 1)
        ([JStr "search_tool"] ++ [JStr "wiki_tool"]) (initial "q").
Proof.
  split; [reflexivity |].
  destruct (unknown_tool_dropped json_loads one_shot "q" 1 "bogus"
              [JStr "search_tool"] [JStr "wiki_tool"] (initial "q"))
    as (H1 & H2 & _).
  - reflexivity.
  - split; [exact H1 | exact H2].
Defined.

Lemma converges_exactly_when_witness :
  after_rounds json_loads one_shot "q" (initial "q")
  ∧ (round_body json_loads one_shot "q" 1 (initial "q")).1 ≠ Ok Break
  ∧ rounds json_loads one_shot "q" [1; 2]%Z (initial "q")
    = rounds json_loads one_shot "q" [2]%Z
        (round_body json_loads one_shot "q" 1 (initial "q")).2.
Proof.
  split; [apply after_none |].
  destruct (converges_exactly_when json_loads one_shot "q" 1 (initial "q"))
    as (_ & _ & _ & H4 & H5).
  - apply after_none.
  - split; [apply H5; reflexivity | apply H4, H5; reflexivity].
Defined.

(** Scenario A and Scenario B, run. *)
Example scenario_A :
  llm_rounds (trace (research_loop json_loads one_shot "q" 2)) = [1; 2]%Z
  ∧ (research json_loads one_shot "q" 2).1
    = Ok (ResearchResponse.mk "q" "X" [] []).
Proof. split; reflexivity. Qed.

Example scenario_B :
  llm_rounds (trace (research_loop json_loads two_rounds "q" 5)) = [1; 2]%Z
  ∧ (research json_loads two_rounds "q" 5).1
    = Ok (ResearchResponse.mk "q" "X" [] ["search_tool"; "wiki_tool"]).
Proof. split; reflexivity. Qed.

(** C6 fails as stated: in round 2 the model's text parses to a plan
    that has no summary, and the session keeps the summary of round 1
    next to the sources of round 2. *)
Lemma summary_kept_counterexample :
  let w1 := (round_body json_loads drifting "q" 1 (initial "q")).2 in
  let w2 := (round_body json_loads drifting "q" 2 w1).2 in
  llm drifting 2 (prompt_of drifting "q" (session w1)) = Returned text_sources_only
  ∧ json_loads (Extractor._extract_json text_sources_only)
    = Some (JObj [("sources", JArr [JStr "b"])])
  ∧ dict_lookup "summary" [("sources", JArr [JStr "b"])] = None
  ∧ summary (session w2) = JStr "A"
  ∧ sources (session w2) = JArr [JStr "b"]
  ∧ dict_lookup "summary" [("sources", JArr [JStr "b"])] ≠ Some (summary (session w2)).
Proof. cbv zeta. split_and!; try reflexivity. discriminate. Qed.

Lemma plan_applied_with_defaults_witness :
  llm drifting 1 (prompt_of drifting "q" (session (initial "q"))) = Returned text_flaky
  ∧ json_loads (Extractor._extract_json text_flaky)
    = Some (JObj [("summary", JStr "A"); ("tools_used", JArr [JStr "flaky"])])
  ∧ summary (session (round_body json_loads drifting "q" 1 (initial "q")).2) = JStr "A"
  ∧ sources (session (round_body json_loads drifting "q" 1 (initial "q")).2) = JArr [].
Proof.
  split; [reflexivity |]. split; [reflexivity |].
  apply (plan_applied_with_defaults json_loads drifting "q" 1 (initial "q") text_flaky
           [("summary", JStr "A"); ("tools_used", JArr [JStr "flaky"])]);
    reflexivity.
Defined.

(** C2 fails as stated: a registered tool whose [run] raises is run
    again in the next round that asks for it. *)
Lemma raising_tool_runs_again :
  is_Some (tool_map with_flaky !! "flaky")
  ∧ after_rounds json_loads with_flaky "q" (research_loop json_loads with_flaky "q" 2)
  ∧ called_names (trace (research_loop json_loads with_flaky "q" 2)) = ["flaky"; "flaky"]
  ∧ ¬ NoDup (called_names (trace (research_loop json_loads with_flaky "q" 2))).
Proof.
  split_and!.
  - by eexists.
  - apply research_loop_after.
  - reflexivity.
  - change (called_names _) with ["flaky"; "flaky"].
    intros [Hnot _]%NoDup_cons. apply Hnot. by left.
Qed.

Lemma tools_recorded_once_witness :
  after_rounds json_loads two_rounds "q" (research_loop json_loads two_rounds "q" 5)
  ∧ NoDup (tools_used (session (research_loop json_loads two_rounds "q" 5)))
  ∧ dom (tool_results (session (research_loop json_loads two_rounds "q" 5)))
    = list_to_set (tools_used (session (research_loop json_loads two_rounds "q" 5)))
  ∧ never_again (trace (research_loop json_loads two_rounds "q" 5)).
Proof.
  split; [apply research_loop_after |].
  destruct (tools_recorded_once json_loads two_rounds "q"
              (research_loop json_loads two_rounds "q" 5))
    as (H1 & H2 & _ & H4 & _).
  - apply research_loop_after.
  - split; [exact H1 |]. split; [exact H2 | exact H4].
Defined.

(** C5 fails as stated: a registered tool whose [run] raises gets no
    entry in [tool_results], is not put in [tools_used], and is run again
    in every round. *)
Lemma raising_tool_not_recorded :
  is_Some (tool_map with_flaky !! "flaky")
  ∧ trace (research_loop json_loads with_flaky "q" 3)
    = [LlmInvoked 1; ToolRun 1 "flaky" (Failed "boom");
       LlmInvoked 2; ToolRun 2 "flaky" (Failed "boom");
       LlmInvoked 3; ToolRun 3 "flaky" (Failed "boom")]
  ∧ tool_results (session (research_loop json_loads with_flaky "q" 3)) !! "flaky" = None
  ∧ tools_used (session (research_loop json_loads with_flaky "q" 3)) = []
  ∧ ¬ (∃ r, tool_results (session (research_loop json_loads with_flaky "q" 3)) !! "flaky"
            = Some r)
  ∧ "flaky" ∉ tools_used (session (research_loop json_loads with_flaky "q" 3)).
Proof.
  split_and!; try reflexivity.
  - by eexists.
  - by intros [r [=]].
  - change (tools_used _) with (@nil string). apply not_elem_of_nil.
Qed.

Lemma builtin_failure_stored_witness :
  tool_map two_rounds
  = _init_tools (λ _ q, Returned ("about " +:+ q)) (λ _ _, Failed "timed out")
      (λ _ _, Returned EmptyString)
  ∧ after_rounds json_loads two_rounds "q" (research_loop json_loads two_rounds "q" 5)
  ∧ ToolRun 1 "wiki_tool" (Returned "Wikipedia error: timed out")
    ∈ trace (research_loop json_loads two_rounds "q" 5)
  ∧ ∃ r, Returned "Wikipedia error: timed out" = Returned r
       ∧ tool_results (session (research_loop json_loads two_rounds "q" 5)) !! "wiki_tool"
         = Some r
       ∧ r = "Wikipedia error: " +:+ "timed out".
Proof.
  assert (ToolRun 1 "wiki_tool" (Returned "Wikipedia error: timed out")
          ∈ trace (research_loop json_loads two_rounds "q" 5)) as Hin.
  { change (trace _) with
      [LlmInvoked 1;
       ToolRun 1 "search_tool" (Returned "DuckDuckGo Search Results: about q");
       ToolRun 1 "wiki_tool" (Returned "Wikipedia error: timed out");
       LlmInvoked 2].
    do 2 apply list_elem_of_further. apply list_elem_of_here. }
  split; [reflexivity |]. split; [apply research_loop_after |]. split; [exact Hin |].
  destruct (builtin_failure_stored json_loads two_rounds "q"
              (λ _ q, Returned ("about " +:+ q)) (λ _ _, Failed "timed out")
              (λ _ _, Returned EmptyString)
              (research_loop json_loads two_rounds "q" 5) 1 "wiki_tool"
              (Returned "Wikipedia error: timed out"))
    as (r & Hr & Hres & _ & _ & _ & _ & Hwiki & _).
  - reflexivity.
  - apply research_loop_after.
  - exact Hin.
  - exists r. split; [exact Hr |]. split; [exact Hres |].
    apply (Hwiki eq_refl). reflexivity.
Defined.

(** C4 fails as stated: no round fails, the model gives a string for the
    sources in each of them, and the construction of the response
    raises. *)
Lemma ill_typed_sources_raise :
  (round_body json_loads bad_sources "q" 1 (initial "q")).1 = Ok Next
  ∧ llm_rounds (trace (research_loop json_loads bad_sources "q" 5)) = [1; 2; 3; 4; 5]%Z
  ∧ sources (session (research_loop json_loads bad_sources "q" 5)) = JStr "wiki"
  ∧ (research json_loads bad_sources "q" 5).1 = Raise ValidationError
  ∧ ¬ (∃ r, (research json_loads bad_sources "q" 5).1 = Ok r).
Proof. split_and!; try reflexivity. by intros [r [=]]. Qed.

Lemma one_shot_emits_typed : emits_typed json_loads one_shot.
Proof.
  intros i p text items [= <-] Hp.
  change (Some plan_done = Some (JObj items)) in Hp. injection Hp as <-.
  split; intros v [= <-]; cbn; eauto.
Defined.

Lemma research_returns_when_typed_witness :
  emits_typed json_loads one_shot
  ∧ ∃ r, (research json_loads one_shot "q" 5).1 = Ok r
       ∧ ResearchResponse.topic r = "q"
       ∧ ResearchResponse.tools_used r
         = tools_used (session (research_loop json_loads one_shot "q" 5)).
Proof.
  split; [exact one_shot_emits_typed |].
  destruct (research_returns_when_typed json_loads one_shot "q" 5) as [_ H].
  destruct (H one_shot_emits_typed) as (r & Hr & Ht & _ & _ & _ & Hu).
  exists r. split; [by rewrite Hr |]. split; [exact Ht | exact Hu].
Defined.

Lemma json_loads_same_but_topic (s : string) :
  same_but_topic (json_loads s) (json_loads_no_topic s).
Proof.
  unfold json_loads_no_topic.
  destruct (String.eqb_spec s text_topic) as [-> | _].
  - change (json_loads text_topic) with (Some plan_topic).
    intros k Hk. cbn [dict_lookup].
    destruct (String.eqb_spec "topic" k) as [<- | _]; done.
  - apply same_but_topic_refl.
Defined.

Lemma topic_is_query_witness :
  (∀ s, same_but_topic (json_loads s) (json_loads_no_topic s))
  ∧ topic (session (research_loop json_loads topical "q" 5)) = "q"
  ∧ (research json_loads topical "q" 5).1 = Ok (ResearchResponse.mk "q" "X" [] [])
  ∧ research json_loads_no_topic topical "q" 5 = research json_loads topical "q" 5.
Proof.
  split; [exact json_loads_same_but_topic |].
  destruct (topic_is_query json_loads topical "q" 5) as (H1 & _ & _ & H4).
  split; [exact H1 |]. split; [reflexivity |].
  apply H4. exact json_loads_same_but_topic.
Defined.

(** A model that asks for the same tool in every round and never gets
    it run to the end uses up the rounds, and no more. *)
Example never_converging_model_stops :
  llm_rounds (trace (research_loop json_loads with_flaky "q" 5)) = [1; 2; 3; 4; 5]%Z
  ∧ (research json_loads with_flaky "q" 5).1
    = Ok (ResearchResponse.mk "q" "A" [] [])
  ∧ trace (research_loop json_loads with_flaky "q" 0) = []
  ∧ trace (research_loop json_loads with_flaky "q" (-3)) = [].
Proof. split_and!; reflexivity. Qed.

End Runs.

(** ** More on the extractor *)

Section ExtractorMore.
Import Text Extractor.

Lemma greedy_body_sound (s r : string) :
  greedy_body s = Some r →
  ∃ mid b, r = mid +:+ String rbrace EmptyString
           ∧ s = mid +:+ String rbrace b ∧ occurs rbrace b = false.
Proof.
  revert r. induction s as [|c s IH]; intros r; cbn [greedy_body]; [done |].
  destruct (greedy_body s) as [r'|] eqn:E.
  - intros [= <-]. destruct (IH r' eq_refl) as (mid & b & -> & -> & Hb).
    by exists (String c mid), b.
  - destruct (Ascii.eqb_spec c rbrace) as [->|]; [| done]. intros [= <-].
    exists EmptyString, s. split_and!; [done | done |].
    destruct (occurs rbrace s) eqn:Ho; [| done].
    clear IH. induction s as [|d s IHs]; [done |].
    cbn [greedy_body] in E. destruct (greedy_body s); [done |].
    cbn [occurs] in Ho. rewrite Ascii.eqb_sym in Ho.
    destruct (Ascii.eqb d rbrace); [done |]. cbn in Ho. by apply IHs.
Qed.

Lemma greedy_body_complete (s : string) :
  occurs rbrace s = true → is_Some (greedy_body s).
Proof.
  induction s as [|c s IH]; [done |]. cbn [occurs greedy_body].
  intros [Hc | Hs]%orb_true_iff.
  - apply Ascii.eqb_eq in Hc as <-. rewrite Ascii.eqb_refl.
    destruct (greedy_body s); eauto.
  - destruct (IH Hs) as [r ->]. eauto.
Qed.

Lemma search_braces_sound (s g : string) :
  search_braces s = Some g →
  ∃ a mid b, g = String lbrace (mid +:+ String rbrace EmptyString)
             ∧ s = a +:+ String lbrace (mid +:+ String rbrace b).
Proof.
  induction s as [|c s IH]; cbn [search_braces]; [done |].
  assert (search_braces s = Some g →
          ∃ a mid b, g = String lbrace (mid +:+ String rbrace EmptyString)
                     ∧ String c s = a +:+ String lbrace (mid +:+ String rbrace b)) as Hrec.
  { intros (a & mid & b & -> & ->)%IH. by exists (String c a), mid, b. }
  destruct (Ascii.eqb_spec c lbrace) as [->|]; [| done].
  destruct (greedy_body s) as [r|] eqn:E; [| done].
  intros [= <-]. apply greedy_body_sound in E as (mid & b & -> & -> & _).
  by exists EmptyString, mid, b.
Qed.

Lemma search_braces_complete (s : string) :
  has_brace_span s → is_Some (search_braces s).
Proof.
  intros (a & mid & b & ->). induction a as [|c a IH]; cbn [String.append search_braces].
  - rewrite Ascii.eqb_refl.
    destruct (greedy_body_complete (mid +:+ String rbrace b)) as [r ->]; [| eauto].
    rewrite occurs_app. cbn [occurs]. by rewrite Ascii.eqb_refl, orb_true_r.
  - destruct (Ascii.eqb c lbrace); [| done].
    destruct (greedy_body _); eauto.
Qed.

Lemma fenced_block_has_span (s : string) : has_fenced_block s → has_brace_span s.
Proof.
  intros (pre & label & ws1 & body & ws2 & post & _ & _ & _ & ->).
  exists (pre +:+ fence +:+ label +:+ ws1), body, (ws2 +:+ fence +:+ post).
  by rewrite !append_assoc.
Qed.

(** X1.  The extractor cuts and never writes: its result is a piece of
    the text it is given. *)
Theorem extract_json_is_substring (text : string) :
  ∃ a b, text = a +:+ _extract_json text +:+ b.
Proof.
  unfold _extract_json.
  destruct (search_fenced text) as [g|] eqn:Hf.
  - apply search_fenced_sound in Hf
      as (pre & label & ws1 & body & ws2 & post & (_ & _ & _ & ->) & ->).
    exists (pre +:+ fence +:+ label +:+ ws1), (ws2 +:+ fence +:+ post).
    rewrite !append_assoc. by cbn [String.append].
  - destruct (search_braces text) as [g|] eqn:Hb.
    + apply search_braces_sound in Hb as (a & mid & b & -> & ->).
      exists a, b. cbn [String.append]. by rewrite append_assoc.
    + exists EmptyString, EmptyString. cbn [String.append]. by rewrite append_empty_r.
Qed.

Lemma string_length_append (a b : string) :
  String.length (a +:+ b) = String.length a + String.length b.
Proof. induction a as [|c a IH]; cbn; [done | by rewrite IH]. Qed.

(** X2.  On a text with no opening brace that a closing brace follows,
    the result is the text itself; on every other text the result begins
    with an opening brace and ends with a closing one.  The result is the
    text itself exactly when the text has no such pair of braces, or
    holds no fenced block and itself begins with an opening brace and
    ends with a closing one. *)
Theorem extract_json_shape (text : string) :
  (has_brace_span text →
     ∃ mid, _extract_json text = String lbrace (mid +:+ String rbrace EmptyString))
  ∧ (¬ has_brace_span text → _extract_json text = text)
  ∧ (_extract_json text = text ↔
       ¬ has_brace_span text
       ∨ (¬ has_fenced_block text
          ∧ ∃ mid, text = String lbrace (mid +:+ String rbrace EmptyString))).
Proof.
  assert (¬ has_brace_span text → _extract_json text = text) as Hid.
  { unfold _extract_json. intros Hno. destruct (search_fenced text) as [g|] eqn:Hf.
    + destruct Hno. apply fenced_block_has_span.
      apply search_fenced_sound in Hf
        as (pre & label & ws1 & body & ws2 & post & ? & _).
      by exists pre, label, ws1, body, ws2, post.
    + destruct (search_braces text) as [g|] eqn:Hb; [| done].
      destruct Hno. apply search_braces_sound in Hb as (a & mid & b & _ & ->).
      by exists a, mid, b. }
  split_and!; [| done |].
  - unfold _extract_json.
    intros Hspan. destruct (search_fenced text) as [g|] eqn:Hf.
    + apply search_fenced_sound in Hf
        as (pre & label & ws1 & body & ws2 & post & _ & ->). by exists body.
    + destruct (search_braces_complete text Hspan) as [g Hg]. rewrite Hg.
      apply search_braces_sound in Hg as (a & mid & b & -> & _). by exists mid.
  - split.
    + unfold _extract_json. destruct (search_fenced text) as [g|] eqn:Hf.
      * apply search_fenced_sound in Hf
          as (pre & label & ws1 & body & ws2 & post & (_ & _ & _ & Ht) & ->).
        intros Heq. exfalso. rewrite Ht in Heq.
        apply (f_equal String.length) in Heq. revert Heq.
        unfold fence. cbn [String.append].
        rewrite !string_length_append. cbn [String.length].
        rewrite !string_length_append. cbn [String.length].
        rewrite !string_length_append. cbn [String.length]. lia.
      * apply search_fenced_None in Hf.
        destruct (search_braces text) as [g|] eqn:Hb.
        -- intros ->. right. split; [done |].
           apply search_braces_sound in Hb as (a & mid & b & Hg & _). by exists mid.
        -- intros _. left. intros [g Hg]%search_braces_complete. congruence.
    + intros [Hno | [Hno [mid ->]]]; [by apply Hid |].
      unfold _extract_json. apply search_fenced_None in Hno. rewrite Hno.
      pose proof (search_braces_first EmptyString mid EmptyString eq_refl eq_refl) as Hb.
      cbn [String.append] in Hb. by rewrite Hb.
Qed.

Lemma extract_json_shape_witness :
  has_brace_span "so {a: 1} it is"
  ∧ ∃ mid, _extract_json "so {a: 1} it is"
           = String lbrace (mid +:+ String rbrace EmptyString).
Proof.
  assert (has_brace_span "so {a: 1} it is") as H
    by (by exists "so ", "a: 1", " it is").
  split; [exact H |].
  destruct (extract_json_shape "so {a: 1} it is") as [H1 _]. exact (H1 H).
Defined.

End ExtractorMore.

(** ** The extractor applied twice *)

Section ExtractorTwice.
Import Text Extractor.

(** The lazy body stops at the first closing brace that the closing tail
    follows: no earlier closing brace of the result has it. *)
Lemma lazy_body_minimal (s r : string) :
  lazy_body s = Some r →
  ∃ rest, s = r +:+ rest ∧ closes_fence rest = true
          ∧ ∀ x t, r = x +:+ String rbrace t → t ≠ EmptyString →
                   closes_fence (t +:+ rest) = false.
Proof.
  revert r. induction s as [|c s IH]; intros r; cbn [lazy_body]; [done |].
  destruct (Ascii.eqb c rbrace && closes_fence s) eqn:E.
  - apply andb_true_iff in E as [->%Ascii.eqb_eq Hs]. intros [= <-].
    exists s. split_and!; [done | done |].
    intros x t Hx Ht. destruct x as [|d x]; cbn in Hx.
    + by injection Hx as <-.
    + injection Hx as _ Hx. by destruct x.
  - destruct (lazy_body s) as [r'|]; [| done]. intros [= <-].
    destruct (IH r' eq_refl) as (rest & -> & Hrest & Hmin).
    exists rest. split_and!; [done | done |].
    intros x t Hx Ht. destruct x as [|d x]; cbn in Hx.
    + injection Hx as -> <-. rewrite Ascii.eqb_refl in E. by cbn in E.
    + injection Hx as _ ->. by apply (Hmin x).
Qed.

Lemma append_cons_nonempty (a b : string) (c : ascii) :
  a +:+ String c b ≠ EmptyString.
Proof. by destruct a. Qed.

(** The payload of a fenced match holds no fenced block itself. *)
Lemma match_fenced_result_plain (s g : string) :
  match_fenced s = Some g → ¬ has_fenced_block g.
Proof.
  unfold match_fenced.
  destruct (strip_prefix fence s) as [s1|]; [| done]. cbn [mbind option_bind].
  destruct (skip_spaces _) as [|c s3]; [done |].
  destruct (Ascii.eqb c lbrace); [| done].
  destruct (lazy_body s3) as [r|] eqn:Hr; [| done]. intros [= <-].
  destruct (lazy_body_minimal _ _ Hr) as (rest & _ & _ & Hmin).
  intros (pre & label & ws1 & body & ws2 & post & _ & _ & Hws2 & Hg).
  assert (String lbrace r
          = (pre +:+ fence +:+ label +:+ ws1 +:+ String lbrace body)
            +:+ String rbrace (ws2 +:+ fence +:+ post)) as Hg'.
  { rewrite Hg, !append_assoc. by cbn [String.append]. }
  destruct (pre +:+ fence +:+ label +:+ ws1 +:+ String lbrace body)
    as [|d x] eqn:Ex.
  { rewrite <- !append_assoc in Ex. by apply append_cons_nonempty in Ex. }
  cbn [String.append] in Hg'. injection Hg' as _ Hr'.
  assert (closes_fence ((ws2 +:+ fence +:+ post) +:+ rest) = false) as Hno.
  { apply (Hmin x); [done |]. unfold fence. cbn [String.append].
    apply append_cons_nonempty. }
  rewrite !append_assoc, closes_fence_ws in Hno; done.
Qed.

Lemma search_fenced_result_plain (s g : string) :
  search_fenced s = Some g → ¬ has_fenced_block g.
Proof.
  induction s as [|c s IH]; cbn [search_fenced].
  - destruct (match_fenced EmptyString) eqn:E; [| done].
    intros [= <-]. by eapply match_fenced_result_plain.
  - destruct (match_fenced (String c s)) eqn:E; [| done].
    intros [= <-]. by eapply match_fenced_result_plain.
Qed.

Lemma has_fenced_block_inside (a g b : string) :
  has_fenced_block g → has_fenced_block (a +:+ g +:+ b).
Proof.
  intros (pre & label & ws1 & body & ws2 & post & Hl & H1 & H2 & ->).
  exists (a +:+ pre), label, ws1, body, ws2, (post +:+ b).
  split_and!; try done. rewrite !append_assoc. cbn [String.append].
  by rewrite ?append_assoc.
Qed.

Lemma search_braces_whole (mid : string) :
  search_braces (String lbrace (mid +:+ String rbrace EmptyString))
  = Some (String lbrace (mid +:+ String rbrace EmptyString)).
Proof. by apply (search_braces_first EmptyString mid EmptyString). Qed.

(** X3.  Extracting from an extracted text changes nothing. *)
Theorem extract_json_idempotent (text : string) :
  _extract_json (_extract_json text) = _extract_json text.
Proof.
  unfold _extract_json at 2 3.
  destruct (search_fenced text) as [g|] eqn:Hf.
  - pose proof (search_fenced_result_plain _ _ Hf) as Hplain.
    apply search_fenced_None in Hplain.
    apply search_fenced_sound in Hf
      as (pre & label & ws1 & body & ws2 & post & _ & ->).
    unfold _extract_json. rewrite Hplain.
    cbn [String.append]. by rewrite search_braces_whole.
  - destruct (search_braces text) as [g|] eqn:Hb.
    + apply search_braces_sound in Hb as (a & mid & b & -> & ->).
      unfold _extract_json.
      assert (search_fenced (String lbrace (mid +:+ String rbrace EmptyString)) = None) as ->.
      { apply search_fenced_None. intros Hin.
        apply search_fenced_None in Hf. apply Hf.
        replace (a +:+ String lbrace (mid +:+ String rbrace b))
          with (a +:+ String lbrace (mid +:+ String rbrace EmptyString) +:+ b)
          by (cbn [String.append]; by rewrite append_assoc).
        by apply has_fenced_block_inside. }
      by rewrite search_braces_whole.
    + unfold _extract_json. by rewrite Hf, Hb.
Qed.

End ExtractorTwice.

(** ** What a returned response is made of *)

Section ResponseLemmas.
Import Json Py Agent.
Context (json_loads : string → option json).
Context (self : Agent.t) (query : string).

Lemma research_Ok_inv (max_iterations : Z) (r : ResearchResponse.t) :
  (Agent.research json_loads self query max_iterations).1 = Ok r →
  ∃ s l,
    as_str (py_or (summary (session (Agent.research_loop json_loads self query max_iterations)))
              (JStr sentinel)) = Some s
    ∧ as_str_list (py_or (sources (session (Agent.research_loop json_loads self query max_iterations)))
                     (JArr [])) = Some l
    ∧ r = ResearchResponse.mk
            (topic (session (Agent.research_loop json_loads self query max_iterations)))
            s l
            (tools_used (session (Agent.research_loop json_loads self query max_iterations))).
Proof.
  unfold Agent.research, respond, ResearchResponse.init.
  destruct (as_str (py_or _ _)) as [s|], (as_str_list (py_or _ _)) as [l|];
    cbn; try done.
  intros [= <-]. by exists s, l.
Qed.

Lemma research_Raise_inv (max_iterations : Z) (e : exn) :
  (Agent.research json_loads self query max_iterations).1 = Raise e →
  e = ValidationError
  ∧ (Agent.research json_loads self query max_iterations).2 = self.
Proof.
  unfold Agent.research, respond, ResearchResponse.init. cbv zeta.
  destruct (as_str (py_or _ _)) as [s|];
    [destruct (as_str_list (py_or _ _)) as [l|] |];
    cbn; try done; by intros [= <-].
Qed.

End ResponseLemmas.

(** ** The registry *)

Section RegistryTheorems.
Import Json Py Agent Trace.
Context (json_loads : string → option json).
Context (self : Agent.t) (query : string).

Local Abbreviation after_rounds := (after_rounds json_loads).
Local Abbreviation research_loop := (Agent.research_loop json_loads).
Local Abbreviation research := (Agent.research json_loads).

(** X4.  [add_tool] and [remove_tool] on the registry: a tool that is
    added is found under its name and replaces what was there, the other
    names keep their tools, a tool that is removed is gone, removing a
    name that is not registered changes nothing, and removing a tool
    just added to a free name gives the agent back.  Neither touches the
    model or the history. *)
Theorem registry_round_trips (name : string) (f g : Tool) :
  tool_map (add_tool name f self) !! name = Some f
  ∧ (∀ other, other ≠ name →
       tool_map (add_tool name f self) !! other = tool_map self !! other)
  ∧ add_tool name g (add_tool name f self) = add_tool name g self
  ∧ tool_map (remove_tool name self) !! name = None
  ∧ (∀ other, other ≠ name →
       tool_map (remove_tool name self) !! other = tool_map self !! other)
  ∧ (tool_map self !! name = None → remove_tool name self = self)
  ∧ (tool_map self !! name = None → remove_tool name (add_tool name f self) = self)
  ∧ llm (add_tool name f self) = llm self
  ∧ llm (remove_tool name self) = llm self
  ∧ conversation_history (add_tool name f self) = conversation_history self
  ∧ conversation_history (remove_tool name self) = conversation_history self.
Proof.
  destruct self as [model tools history]. unfold add_tool, remove_tool. cbn.
  split_and!; try done.
  - apply lookup_insert_eq.
  - intros other Ho. by apply lookup_insert_ne.
  - by rewrite insert_insert_eq.
  - apply lookup_delete_eq.
  - intros other Ho. by apply lookup_delete_ne.
  - intros Hn. by rewrite delete_id.
  - intros Hn. by rewrite delete_insert_eq, delete_id.
Qed.

Lemma elem_of_called_names (n : string) (tr : list event) :
  n ∈ called_names tr ↔ ∃ i o, ToolRun i n o ∈ tr.
Proof.
  unfold called_names. rewrite list_elem_of_omap. split.
  - intros ([j|j m o] & Hin & [= <-]). eauto.
  - intros (i & o & Hin). eauto.
Qed.

(** Only registered tools are run. *)
Lemma called_names_registered (a : Agent.t) (w : World) (n : string) :
  after_rounds a query w → n ∈ called_names (trace w) →
  is_Some (tool_map a !! n).
Proof.
  intros Hc%after_rounds_consistent (i & o & Hin)%elem_of_called_names.
  destruct (c_genuine _ _ _ Hc _ _ _ Hin) as (tool & Ht & _). by exists tool.
Qed.

(** X5.  After [remove_tool] a call never runs the tool that was
    removed, whatever the model asks for, and a response never lists
    it. *)
Theorem removed_tool_never_run (name : string) (max_iterations : Z) :
  (name ∉ called_names (trace (research_loop (remove_tool name self) query max_iterations)))
  ∧ (name ∉ tools_used (session (research_loop (remove_tool name self) query max_iterations)))
  ∧ (∀ r, (research (remove_tool name self) query max_iterations).1 = Ok r →
          name ∉ ResearchResponse.tools_used r).
Proof.
  pose proof (research_loop_after json_loads (remove_tool name self) query max_iterations)
    as Hw.
  assert (tool_map (remove_tool name self) !! name = None) as Hnone
    by apply lookup_delete_eq.
  assert (name ∉ tools_used
            (session (research_loop (remove_tool name self) query max_iterations)))
    as Hused.
  { intros [tool Ht]%(tools_used_registered json_loads _ query _ _ Hw). congruence. }
  split_and!; [| done |].
  - intros [tool Ht]%(called_names_registered _ _ _ Hw). congruence.
  - by intros r (s & l & _ & _ & ->)%research_Ok_inv.
Qed.

End RegistryTheorems.

Section RegistryRuns.
Import Json Py Agent.

Lemma registry_round_trips_witness :
  tool_map Scenario.one_shot !! "extra" = None
  ∧ remove_tool "extra" Scenario.one_shot = Scenario.one_shot
  ∧ remove_tool "extra" (add_tool "extra" Scenario.flaky Scenario.one_shot)
    = Scenario.one_shot.
Proof.
  assert (tool_map Scenario.one_shot !! "extra" = None) as H by reflexivity.
  split; [exact H |].
  destruct (registry_round_trips Scenario.one_shot "extra" Scenario.flaky Scenario.flaky)
    as (_ & _ & _ & _ & _ & H6 & H7 & _).
  split; [exact (H6 H) | exact (H7 H)].
Defined.

End RegistryRuns.

(** ** A call as a whole *)

Section CallTheorems.
Import Json Py Agent Trace.
Context (json_loads : string → option json).
Context (self : Agent.t) (query : string).

Local Abbreviation round_body := (Agent.round_body json_loads self query).
Local Abbreviation rounds := (Agent.rounds json_loads self query).
Local Abbreviation research_loop := (Agent.research_loop json_loads self query).
Local Abbreviation research := (Agent.research json_loads self query).
Local Abbreviation step := (step json_loads self query).
Local Abbreviation never_plans := (never_plans json_loads self).

Lemma step_grows (i : Z) (w w' : World) :
  step i w w' →
  tools_used (session w) `prefix_of` tools_used (session w')
  ∧ tool_results (session w) ⊆ tool_results (session w').
Proof.
  intros [w1 items p text Ho Hp | ? ? [w1 name tool Ht Hr]]; [done |].
  unfold called. destruct (tool i query) as [r|d]; cbn; [| done].
  split; [by apply prefix_app_r | by apply insert_subseteq].
Qed.

Lemma round_body_grows (i : Z) (w : World) :
  tools_used (session w) `prefix_of` tools_used (session (round_body i w).2)
  ∧ tool_results (session w) ⊆ tool_results (session (round_body i w).2).
Proof.
  eapply (steps_preserve json_loads self query
            (λ w', tools_used (session w) `prefix_of` tools_used (session w')
                   ∧ tool_results (session w) ⊆ tool_results (session w')));
    [| apply round_body_steps | done].
  intros w1 w2 [H1 H2] [H3 H4]%step_grows. split; by etrans.
Qed.

(** X6.  Over the rounds of a call the session only grows: the list of
    tools used is extended at its end, and a result once stored is
    neither removed nor replaced. *)
Theorem session_only_grows (its : list Z) (w : World) :
  tools_used (session w) `prefix_of` tools_used (session (rounds its w))
  ∧ (∀ n r, tool_results (session w) !! n = Some r →
            tool_results (session (rounds its w)) !! n = Some r).
Proof.
  assert (tools_used (session w) `prefix_of` tools_used (session (rounds its w))
          ∧ tool_results (session w) ⊆ tool_results (session (rounds its w))) as [H1 H2].
  { revert w. induction its as [|i its IH]; intros w; [done |].
    cbn [Agent.rounds]. pose proof (round_body_grows i w) as [H1 H2].
    destruct (round_body i w) as [[[]|e] w1]; cbn [snd] in H1, H2; [done | |];
      destruct (IH w1) as [H3 H4]; split; by etrans. }
  split; [done |]. intros n r Hn. by eapply lookup_weaken.
Qed.

Lemma round_break (i : Z) (w w' : World) :
  round_body i w = (Ok Break, w') →
  2 ≤ length (tools_used (session w'))
  ∧ truthy (summary (session w')) = true.
Proof.
  rewrite round_body_unfold.
  destruct (llm self i _) as [text|d]; [| done].
  destruct (json_loads _) as [plan|]; [| done].
  destruct plan as [| | | | |l|items]; try done. cbv zeta.
  destruct (stops items (session w)) eqn:Hstop.
  - intros [= <-]. unfold stops in Hstop.
    apply andb_true_iff in Hstop as [[_ H2]%andb_true_iff H3].
    apply Nat.leb_le in H3. done.
  - destruct (py_iter _); [| done]. by destruct (for_each _ _ _) as [[[]|?] ?].
Qed.

Lemma rounds_all_or_converged (its : list Z) (w : World) :
  llm_rounds (trace (rounds its w)) = llm_rounds (trace w) ++ its
  ∨ (2 ≤ length (tools_used (session (rounds its w)))
     ∧ truthy (summary (session (rounds its w))) = true).
Proof.
  revert w. induction its as [|i its IH]; intros w.
  - left. cbn. by rewrite app_nil_r.
  - cbn [Agent.rounds]. pose proof (llm_rounds_round json_loads self query i w) as Hi.
    pose proof (round_break i w) as Hb.
    destruct (round_body i w) as [[[]|e] w1]; cbn [snd] in Hi.
    + right. by apply Hb.
    + destruct (IH w1) as [-> | H]; [left | by right].
      by rewrite Hi, <- app_assoc.
    + destruct (IH w1) as [-> | H]; [left | by right].
      by rewrite Hi, <- app_assoc.
Qed.

(** X7.  A call that ends before its rounds are used up has converged:
    the session then holds at least two tools and a summary that is not
    empty, and so does a response that is returned. *)
Theorem early_exit_has_converged (max_iterations : Z) :
  length (llm_rounds (trace (research_loop max_iterations))) < Z.to_nat max_iterations →
  2 ≤ length (tools_used (session (research_loop max_iterations)))
  ∧ truthy (summary (session (research_loop max_iterations))) = true
  ∧ (∀ r, (research max_iterations).1 = Ok r →
          2 ≤ length (ResearchResponse.tools_used r)
          ∧ JStr (ResearchResponse.summary r)
            = summary (session (research_loop max_iterations))).
Proof.
  intros Hlt. unfold Agent.research_loop in *.
  destruct (rounds_all_or_converged (py_range 1 (max_iterations + 1)) (initial query))
    as [Hall | [H1 H2]].
  - rewrite Hall in Hlt. cbn in Hlt. rewrite length_py_range in Hlt. lia.
  - split_and!; [done | done |].
    intros r (s & l & Hs & _ & ->)%research_Ok_inv.
    unfold Agent.research_loop, py_or in Hs. rewrite H2 in Hs. cbn.
    split; [done |].
    destruct (summary _) as [| | | |s'| |]; try done. by injection Hs as ->.
Qed.

(** X9.  The summary of a response is never empty.  When the summary
    of the session at the end of the loop is truthy, it is a string and
    the response carries that very string; when it is falsy (the empty
    string, [None], zero, an empty list or dict), the response carries
    the sentinel. *)
Theorem response_summary_not_empty (max_iterations : Z) (r : ResearchResponse.t) :
  (research max_iterations).1 = Ok r →
  ResearchResponse.summary r ≠ EmptyString
  ∧ (truthy (summary (session (research_loop max_iterations))) = true →
       summary (session (research_loop max_iterations))
       = JStr (ResearchResponse.summary r))
  ∧ (truthy (summary (session (research_loop max_iterations))) = false →
       ResearchResponse.summary r = sentinel).
Proof.
  intros (s & l & Hs & _ & ->)%research_Ok_inv. cbn. unfold py_or in Hs.
  destruct (truthy (summary (session (research_loop max_iterations)))) eqn:Ht.
  - destruct (summary (session (research_loop max_iterations)))
      as [| | | |s'| |]; try done.
    injection Hs as ->. split_and!; [by destruct s | done | done].
  - injection Hs as <-. by split_and!.
Qed.

Lemma rounds_never_plans (its : list Z) (w : World) :
  never_plans →
  rounds its w = mkWorld (session w) (trace w ++ (LlmInvoked <$> its)).
Proof.
  intros Hnever. revert w. induction its as [|i its IH]; intros w.
  - cbn. rewrite app_nil_r. by destruct w.
  - cbn [Agent.rounds].
    assert (∃ e, round_body i w = (Raise e, asked i w)) as [e ->].
    { rewrite round_body_unfold.
      destruct (llm self i _) as [text|d] eqn:Ho; [| eauto].
      destruct (json_loads _) as [plan|] eqn:Hp; [| eauto].
      destruct plan; eauto. by destruct (Hnever _ _ _ _ Ho Hp). }
    rewrite IH. unfold asked. cbn. by rewrite <- app_assoc.
Qed.

(** X10.  With no round to run, or with a model none of whose answers
    parses to an object, the call asks the model in every round there
    is, runs no tool, and returns the sentinel summary with no sources
    and no tools; that exchange is added to the history. *)
Theorem no_plan_gives_sentinel (max_iterations : Z) :
  (max_iterations ≤ 0)%Z ∨ never_plans →
  research max_iterations
  = (Ok (ResearchResponse.mk query sentinel [] []),
     Agent.mk (llm self) (tool_map self)
       (conversation_history self ++ [mkItem query sentinel []]))
  ∧ trace (research_loop max_iterations)
    = LlmInvoked <$> py_range 1 (max_iterations + 1).
Proof.
  intros H.
  assert (research_loop max_iterations
          = mkWorld (session (initial query))
              (LlmInvoked <$> py_range 1 (max_iterations + 1))) as Hloop.
  { unfold Agent.research_loop. destruct H as [Hle | Hnever].
    - unfold py_range. replace (Z.to_nat (max_iterations + 1 - 1)) with 0 by lia.
      done.
    - by rewrite rounds_never_plans. }
  split; [| by rewrite Hloop].
  unfold Agent.research. by rewrite Hloop.
Qed.

End CallTheorems.

(** ** The context of follow-up questions *)

Section ContextTheorems.
Import Json Py Agent.

Lemma length_substring_le (n : nat) (s : string) :
  String.length (String.substring 0 n s) ≤ n.
Proof.
  revert s. induction n as [|n IH]; intros [|c s]; cbn; try lia.
  specialize (IH s). lia.
Qed.

Lemma last3_app (old recent : list HistoryItem) :
  3 ≤ length recent → last3 (old ++ recent) = last3 recent.
Proof.
  intros H. unfold last3. rewrite length_app, drop_app.
  rewrite drop_ge by lia. cbn. f_equal. lia.
Qed.

Lemma last3_snoc (h : list HistoryItem) (item : HistoryItem) :
  last3 (h ++ [item]) = drop (length h - 2) h ++ [item].
Proof.
  unfold last3. rewrite length_app, drop_app. cbn.
  replace (length h + 1 - 3) with (length h - 2) by lia.
  replace (length h - 2 - length h) with 0 by lia. done.
Qed.

(** X11.  The context of a prompt is built from the last three exchanges
    only, oldest first, each with its query and the first 200 characters
    of its summary: it has as many entries as the history, up to three;
    no summary in it is longer than 200 characters; what lies before the
    last three exchanges has no effect on it; and its last entry is the
    most recent exchange. *)
Theorem context_window (history : list HistoryItem) :
  length (context_of history) = length history `min` 3
  ∧ (∀ q s, (q, s) ∈ context_of history → String.length s ≤ 200)
  ∧ (∀ old recent, 3 ≤ length recent →
       context_of (old ++ recent) = context_of recent)
  ∧ (∀ item,
       last (context_of (history ++ [item]))
       = Some (hist_query item, first200 (hist_summary item))).
Proof.
  unfold context_of. split_and!.
  - rewrite length_fmap. unfold last3. rewrite length_drop. lia.
  - intros q s (item & [= -> ->] & _)%list_elem_of_fmap.
    apply length_substring_le.
  - intros old recent H. by rewrite last3_app.
  - intros item. rewrite last3_snoc, fmap_app. apply last_snoc.
Qed.

Lemma context_window_witness :
  3 ≤ length (conversation_history MoreScenario.seasoned)
  ∧ context_of ([mkItem "q0" "s0" []] ++ conversation_history MoreScenario.seasoned)
    = context_of (conversation_history MoreScenario.seasoned).
Proof.
  assert (3 ≤ length (conversation_history MoreScenario.seasoned)) as H
    by (cbn; lia).
  split; [exact H |].
  destruct (context_window []) as (_ & _ & H3 & _). exact (H3 _ _ H).
Defined.

Context (json_loads : string → option json).
Context (self : Agent.t) (query : string).

Lemma research_Ok_history (max_iterations : Z) (r : ResearchResponse.t) (self' : Agent.t) :
  Agent.research json_loads self query max_iterations = (Ok r, self') →
  self' = Agent.mk (llm self) (tool_map self)
            (conversation_history self ++
               [mkItem query (ResearchResponse.summary r) (ResearchResponse.sources r)]).
Proof.
  unfold Agent.research. cbv zeta.
  destruct (respond _) as [r'|e]; [| done]. by intros [= <- <-].
Qed.

(** X12.  A call that returns is what the next call is told last: in
    every prompt of the next call on the agent, whatever its query, the
    last entry of the context is the query of this call with the first
    200 characters of the summary it returned. *)
Theorem next_call_sees_exchange (max_iterations : Z) (r : ResearchResponse.t)
    (self' : Agent.t) (query' : string) (st : Session) :
  Agent.research json_loads self query max_iterations = (Ok r, self') →
  last (p_context (prompt_of self' query' st))
  = Some (query, first200 (ResearchResponse.summary r))
  ∧ p_available (prompt_of self' query' st) = dom (tool_map self)
  ∧ p_query (prompt_of self' query' st) = query'.
Proof.
  intros ->%research_Ok_history. unfold prompt_of.
  cbn [p_context p_available p_query conversation_history tool_map].
  unfold context_of. split; [| done]. rewrite last3_snoc, fmap_app. apply last_snoc.
Qed.

End ContextTheorems.

(** ** Requests of every shape *)

Section RequestTheorems.
Import Json Py Agent Trace.
Context (json_loads : string → option json).
Context (self : Agent.t) (query : string).

Local Abbreviation round_body := (Agent.round_body json_loads self query).
Local Abbreviation run_tool := (Agent.run_tool self query).
Local Abbreviation prompt_of := (Agent.prompt_of self query).
Local Abbreviation after_rounds := (after_rounds json_loads self query).

(** The tools of a new agent return whatever their back ends do. *)
Lemma init_tools_return (search wikipedia write : Tool) (n : string) (tool : Tool)
    (i : Z) (q : string) :
  _init_tools search wikipedia write !! n = Some tool →
  ∃ r, tool i q = Returned r.
Proof.
  unfold _init_tools. rewrite !lookup_insert, lookup_empty.
  repeat case_decide; intros [= <-].
  - unfold save_tool. destruct (write i _); eauto.
  - unfold wiki_tool. destruct (wikipedia i q); eauto.
  - unfold search_tool. destruct (search i q); eauto.
Qed.

(** With tools that return, a request that is a list of names is served
    to its end. *)
Lemma for_each_names_served (i : Z) (names : list string) (w : World) :
  (∀ n tool, tool_map self !! n = Some tool → ∃ r, tool i query = Returned r) →
  ∃ w', for_each (run_tool i) (JStr <$> names) w = (Ok (), w')
        ∧ tool_results (session w) ⊆ tool_results (session w')
        ∧ ∀ n, n ∈ names → is_Some (tool_map self !! n) →
               is_Some (tool_results (session w') !! n).
Proof.
  intros Hret. revert w. induction names as [|n names IH]; intros w.
  - exists w. split_and!; [done | done |]. by intros n []%elem_of_nil.
  - cbn [fmap list_fmap for_each]. unfold mbind, M_bind. rewrite run_tool_unfold.
    assert (∃ w1, (match tool_map self !! n, tool_results (session w) !! n with
                   | Some tool, None =>
                       (match tool i query with
                        | Returned _ => Ok ()
                        | Failed d => Raise (Failure d)
                        end, called i n (tool i query) w)
                   | _, _ => (Ok (), w)
                   end) = (Ok (), w1)
                  ∧ tool_results (session w) ⊆ tool_results (session w1)
                  ∧ (is_Some (tool_map self !! n) →
                     is_Some (tool_results (session w1) !! n)))
      as (w1 & -> & Hsub & Hn).
    { destruct (tool_map self !! n) as [tool|] eqn:Ht.
      - destruct (tool_results (session w) !! n) as [r0|] eqn:Hr.
        + exists w. split_and!; [done | done |]. by rewrite Hr.
        + destruct (Hret _ _ Ht) as [r Hrun]. rewrite Hrun.
          eexists. split_and!; [done | |]; cbn.
          * by apply insert_subseteq.
          * intros _. rewrite lookup_insert_eq. eauto.
      - exists w. split_and!; [done | done |]. by intros [? ?]. }
    destruct (IH w1) as (w' & Hrun & Hsub' & Hall).
    exists w'. split_and!; [done | by etrans |].
    intros m [-> | Hm]%elem_of_cons Hreg.
    + destruct (Hn Hreg) as [r Hr]. exists r. by eapply lookup_weaken.
    + by apply Hall.
Qed.

(** X13.  With the registry of a new agent, a plan that asks for a list
    of tool names has all of them run in that one round: the round ends
    without an exception, and each of the three tools that is asked for
    has its result in the session and is listed as used. *)
Theorem builtin_request_served (search wikipedia write : Tool) (i : Z) (w : World)
    (text : string) (items : list (string * json)) (names : list string) :
  tool_map self = _init_tools search wikipedia write →
  after_rounds w →
  llm self i (prompt_of (session w)) = Returned text →
  json_loads (Extractor._extract_json text) = Some (JObj items) →
  dict_lookup "tools_used" items = Some (JArr (JStr <$> names)) →
  names ≠ [] →
  (round_body i w).1 = Ok Next
  ∧ ∀ n, n ∈ names → n ∈ ["search_tool"; "wiki_tool"; "save_tool"] →
         is_Some (tool_results (session (round_body i w).2) !! n)
         ∧ n ∈ tools_used (session (round_body i w).2).
Proof.
  intros Hreg Hw Ho Hp Hreq Hne.
  pose proof (after_rounds_consistent _ _ _ _ (after_round _ _ _ i w Hw)) as Hc.
  revert Hc. rewrite round_body_unfold, Ho, Hp. cbv zeta.
  unfold stops, requested. rewrite Hreq. cbn [default from_option id].
  assert (truthy (JArr (JStr <$> names)) = true) as -> by by destruct names.
  cbn [negb andb py_iter].
  destruct (for_each_names_served i names
              (mkWorld (applied items (session w)) (trace (asked i w))))
    as (w' & -> & _ & Hall).
  { intros n tool Ht. rewrite Hreg in Ht. by eapply init_tools_return. }
  cbn [fst snd]. intros Hc. split; [done |].
  intros n Hn Hbuiltin.
  assert (is_Some (tool_results (session w') !! n)) as Hres.
  { apply Hall; [done |]. rewrite Hreg. unfold _init_tools.
    rewrite !lookup_insert, lookup_empty.
    repeat case_decide; eauto.
    rewrite !elem_of_cons, elem_of_nil in Hbuiltin.
    by destruct Hbuiltin as [? | [? | [? | []]]]. }
  split; [done |].
  apply elem_of_dom in Hres. rewrite (c_keys _ _ _ Hc) in Hres.
  by apply elem_of_list_to_set in Hres.
Qed.

Lemma for_each_chars_nothing (i : Z) (s : string) (w : World) :
  (∀ c, tool_map self !! String c EmptyString = None) →
  for_each (run_tool i) (JStr <$> chars s) w = (Ok (), w).
Proof.
  intros Hone. induction s as [|c s IH]; [done |].
  cbn [chars fmap list_fmap for_each]. unfold mbind, M_bind.
  rewrite run_tool_unfold, Hone. exact IH.
Qed.

(** X14.  A plan that gives the name of a tool as a string, where a list
    of names is expected, has no tool run: the string is gone through
    character by character, and when no tool has a name of one character
    the round applies the plan's summary and sources and ends without an
    exception, with nothing run and nothing recorded. *)
Theorem string_request_runs_nothing (i : Z) (w : World) (text s : string)
    (items : list (string * json)) :
  (∀ c, tool_map self !! String c EmptyString = None) →
  llm self i (prompt_of (session w)) = Returned text →
  json_loads (Extractor._extract_json text) = Some (JObj items) →
  dict_lookup "tools_used" items = Some (JStr s) →
  s ≠ EmptyString →
  round_body i w
  = (Ok Next, mkWorld (applied items (session w)) (trace w ++ [LlmInvoked i])).
Proof.
  intros Hone Ho Hp Hreq Hs.
  rewrite round_body_unfold, Ho, Hp. cbv zeta.
  unfold stops, requested. rewrite Hreq. cbn [default from_option id].
  assert (truthy (JStr s) = true) as -> by by destruct s.
  cbn [negb andb py_iter]. by rewrite for_each_chars_nothing.
Qed.

(** X15.  A round can raise after it has changed the session: when the
    plan's request for tools is a number, a Boolean or null and the round
    does not stop the loop, the round raises [TypeError] with the plan's
    summary and sources already applied, and no tool run. *)
Theorem scalar_request_raises_late (i : Z) (w : World) (text : string)
    (items : list (string * json)) :
  llm self i (prompt_of (session w)) = Returned text →
  json_loads (Extractor._extract_json text) = Some (JObj items) →
  match requested items with
  | JNull | JBool _ | JInt _ | JFloat _ _ => True
  | _ => False
  end →
  stops items (session w) = false →
  round_body i w
  = (Raise TypeError, mkWorld (applied items (session w)) (trace w ++ [LlmInvoked i]))
  ∧ summary (session (round_body i w).2)
    = default (summary (session w)) (dict_lookup "summary" items).
Proof.
  intros Ho Hp Hscalar Hstop.
  rewrite round_body_unfold, Ho, Hp. cbv zeta. rewrite Hstop.
  by destruct (requested items).
Qed.

End RequestTheorems.

(** ** The runs of the tools, round by round *)

Section RunsOnce.
Import Json Py Agent Trace.
Context (json_loads : string → option json).
Context (self : Agent.t) (query : string).

Local Abbreviation round_body := (Agent.round_body json_loads self query).
Local Abbreviation run_tool := (Agent.run_tool self query).
Local Abbreviation rounds := (Agent.rounds json_loads self query).
Local Abbreviation research_loop := (Agent.research_loop json_loads self query).

Lemma called_in_app (tr1 tr2 : list event) :
  called_in (tr1 ++ tr2) = called_in tr1 ++ called_in tr2.
Proof. apply omap_app. Qed.

Lemma for_each_runs_once (i : Z) (l : list json) (w : World) :
  ∃ evs, trace (for_each (run_tool i) l w).2 = trace w ++ evs
         ∧ NoDup (called_names evs)
         ∧ called_in evs = (λ n, (i, n)) <$> called_names evs
         ∧ ∀ n, n ∈ called_names evs → tool_results (session w) !! n = None.
Proof.
  revert w. induction l as [|x l IH]; intros w.
  - exists []. cbn. rewrite app_nil_r. split_and!; try done; [constructor |].
    by intros n []%elem_of_nil.
  - cbn [for_each]. unfold mbind, M_bind. rewrite run_tool_unfold.
    assert (∃ evs, trace w ++ [] = trace w ++ evs
                   ∧ NoDup (called_names evs)
                   ∧ called_in evs = (λ n, (i, n)) <$> called_names evs
                   ∧ ∀ n, n ∈ called_names evs → tool_results (session w) !! n = None)
      as Hnil.
    { exists []. split_and!; try done; [constructor |]. by intros n []%elem_of_nil. }
    rewrite app_nil_r in Hnil.
    destruct x as [| | | |name| |]; try apply IH; try exact Hnil.
    destruct (tool_map self !! name) as [tool|] eqn:Ht; [| apply IH].
    destruct (tool_results (session w) !! name) as [r0|] eqn:Hr; [apply IH |].
    destruct (tool i query) as [r|d] eqn:Ho; cbn [called].
    + destruct (IH (mkWorld (record_result name r (session w))
                      (trace w ++ [ToolRun i name (Returned r)])))
        as (evs & -> & Hnd & Hin & Hfree).
      cbn [trace session] in *.
      exists (ToolRun i name (Returned r) :: evs). split_and!.
      * by rewrite <- app_assoc.
      * cbn. apply NoDup_cons. split; [| done].
        intros Hn%Hfree. cbn in Hn. by rewrite lookup_insert_eq in Hn.
      * change ((i, name) :: called_in evs
                = (λ n : string, (i, n)) <$> (name :: called_names evs)).
        by rewrite Hin.
      * intros n [-> | Hn%Hfree]%elem_of_cons; [done |].
        cbn in Hn. by apply lookup_insert_None in Hn as [? _].
    + exists [ToolRun i name (Failed d)]. cbn. split_and!; try done.
      * apply NoDup_singleton.
      * by intros n ->%list_elem_of_singleton.
Qed.

Lemma round_body_runs_once (i : Z) (w : World) :
  ∃ names, called_in (trace (round_body i w).2)
           = called_in (trace w) ++ ((λ n, (i, n)) <$> names)
           ∧ NoDup names.
Proof.
  rewrite round_body_unfold.
  assert (∃ names, called_in (trace (asked i w))
                   = called_in (trace w) ++ ((λ n, (i, n)) <$> names) ∧ NoDup names)
    as Hnone.
  { exists []. unfold asked. cbn [trace]. rewrite called_in_app. cbn.
    split; [done | constructor]. }
  destruct (llm self i _) as [text|d]; [| done].
  destruct (json_loads _) as [plan|]; [| done].
  destruct plan as [| | | | |l|items]; try done. cbv zeta.
  destruct (stops items (session w)); [done |].
  destruct (py_iter _) as [l|e]; [| done].
  destruct (for_each_runs_once i l
              (mkWorld (applied items (session w)) (trace (asked i w))))
    as (evs & Htr & Hnd & Hin & _).
  exists (called_names evs).
  destruct (for_each _ _ _) as [[[]|e] w3]; cbn [snd trace] in *;
    rewrite Htr; unfold asked; cbn [trace];
    rewrite !called_in_app, Hin; cbn; by rewrite app_nil_r.
Qed.

Lemma rounds_run_once (its : list Z) (w : World) :
  NoDup its →
  ∃ ps, called_in (trace (rounds its w)) = called_in (trace w) ++ ps
        ∧ NoDup ps ∧ ∀ j n, (j, n) ∈ ps → j ∈ its.
Proof.
  revert w. induction its as [|i its IH]; intros w Hnd.
  - exists []. cbn. rewrite app_nil_r. split_and!; [done | constructor |].
    by intros j n []%elem_of_nil.
  - apply NoDup_cons in Hnd as [Hi Hnd]. cbn [Agent.rounds].
    destruct (round_body_runs_once i w) as (names & Hround & Hnames).
    assert (NoDup ((λ n : string, (i, n)) <$> names)) as Hps.
    { apply NoDup_fmap_2; [| done]. by intros x y [= ->]. }
    assert (∀ j n, (j, n) ∈ (λ n : string, (i, n)) <$> names → j ∈ i :: its) as Hj.
    { intros j n (m & [= -> ->] & _)%list_elem_of_fmap. by left. }
    destruct (round_body i w) as [[[]|e] w1]; cbn [snd] in Hround.
    + exists ((λ n : string, (i, n)) <$> names). by split_and!.
    + destruct (IH w1 Hnd) as (ps & -> & Hnd' & Hin).
      exists (((λ n : string, (i, n)) <$> names) ++ ps). split_and!.
      * by rewrite Hround, <- app_assoc.
      * apply NoDup_app. split_and!; [done | | done].
        intros [j n] (m & [= -> ->] & _)%list_elem_of_fmap Hin'%Hin. done.
      * intros j n [Hl | Hr]%elem_of_app; [by eapply Hj | right; by eapply Hin].
    + destruct (IH w1 Hnd) as (ps & -> & Hnd' & Hin).
      exists (((λ n : string, (i, n)) <$> names) ++ ps). split_and!.
      * by rewrite Hround, <- app_assoc.
      * apply NoDup_app. split_and!; [done | | done].
        intros [j n] (m & [= -> ->] & _)%list_elem_of_fmap Hin'%Hin. done.
      * intros j n [Hl | Hr]%elem_of_app; [by eapply Hj | right; by eapply Hin].
Qed.

Lemma NoDup_py_range (lo hi : Z) : NoDup (py_range lo hi).
Proof.
  unfold py_range. apply NoDup_fmap_2; [| apply NoDup_seq].
  intros x y H. lia.
Qed.

Lemma elem_of_py_range (lo hi i : Z) : i ∈ py_range lo hi → (lo ≤ i < hi)%Z.
Proof.
  unfold py_range. intros (k & -> & Hk)%list_elem_of_fmap.
  apply elem_of_seq in Hk. lia.
Qed.

(** X16.  In one call no tool is run twice in the same round, whatever
    the request repeats and whatever the tool does, and every run
    belongs to one of the rounds 1 to [max_iterations]. *)
Theorem tool_runs_once_per_round (max_iterations : Z) :
  NoDup (called_in (trace (research_loop max_iterations)))
  ∧ ∀ i n, (i, n) ∈ called_in (trace (research_loop max_iterations)) →
           (1 ≤ i ≤ max_iterations)%Z.
Proof.
  unfold Agent.research_loop.
  destruct (rounds_run_once (py_range 1 (max_iterations + 1)) (initial query)
              (NoDup_py_range _ _)) as (ps & -> & Hnd & Hin).
  cbn. split; [done |].
  intros i n Hi%Hin%elem_of_py_range. lia.
Qed.

End RunsOnce.

(** ** The batch example *)

Section BatchTheorems.
Import Json Py Agent.
Context (json_loads : string → option json).
Context (print : list Main.line → Main.line → option exn).

Local Abbreviation research_each := (Main.research_each json_loads print).
Local Abbreviation say_all := (Main.say_all print).

Lemma research_Ok_topic (a : Agent.t) (q : string) (max_iterations : Z)
    (r : ResearchResponse.t) :
  (Agent.research json_loads a q max_iterations).1 = Ok r →
  ResearchResponse.topic r = q.
Proof.
  intros (s & l & _ & _ & ->)%research_Ok_inv. cbn.
  apply (c_topic a q), after_rounds_consistent with json_loads, research_loop_after.
Qed.

Lemma research_typed_Ok (a : Agent.t) (q : string) (max_iterations : Z) :
  emits_typed json_loads a →
  ∃ r, (Agent.research json_loads a q max_iterations).1 = Ok r.
Proof.
  intros Hty.
  destruct (after_rounds_typed json_loads a q _ Hty
              (research_loop_after json_loads a q max_iterations)) as [[s Hs] [l Hl]].
  unfold Agent.research, respond, ResearchResponse.init. cbv zeta.
  destruct (summary _) as [| | | |s'| |]; try done.
  destruct (sources _) as [| | | | |items|]; try done.
  assert (∃ s2, as_str (py_or (JStr s') (JStr sentinel)) = Some s2) as [s2 ->]
    by (destruct s'; cbn; eauto).
  assert (∃ l2, as_str_list (py_or (JArr items) (JArr [])) = Some l2) as [l2 ->].
  { destruct items; [by exists [] | by exists l]. }
  cbn. eauto.
Qed.

Lemma say_all_spec (ls : list Main.line) (c : Main.Log) :
  match say_all ls c with
  | (Ok _, c') => c' = Main.mkLog (Main.printed c ++ ls) (Main.researched c)
  | (Raise e, c') =>
      Main.researched c' = Main.researched c
      ∧ ∃ l, print (Main.printed c') l = Some e
  end.
Proof.
  revert c. induction ls as [|l ls IH]; intros c; cbn [Main.say_all].
  - rewrite app_nil_r. by destruct c.
  - unfold Main.say. destruct (print (Main.printed c) l) as [e|] eqn:Hp.
    + split; [done | by exists l].
    + specialize (IH (Main.mkLog (Main.printed c ++ [l]) (Main.researched c))).
      destruct (say_all ls _) as [[[]|e] c']; cbn in IH.
      * by rewrite <- app_assoc in IH.
      * done.
Qed.

(** The loop of [batch_research], from any agent, queries and log. *)
Lemma research_each_spec (a : Agent.t) (qs : list string)
    (rs : list ResearchResponse.t) (c : Main.Log) :
  match research_each a qs rs c with
  | (Ok out, _, c') =>
      ∃ new, out = rs ++ new
             ∧ ResearchResponse.topic <$> new = qs
             ∧ c' = Main.mkLog (Main.printed c ++ (new ≫= Main.report))
                               (Main.researched c ++ qs)
  | (Raise e, _, c') =>
      ∃ new q rest,
        qs = (ResearchResponse.topic <$> new) ++ q :: rest
        ∧ ((print (Main.printed c') (Main.Researching q) = Some e
            ∧ c' = Main.mkLog (Main.printed c ++ (new ≫= Main.report))
                     (Main.researched c ++ (ResearchResponse.topic <$> new)))
           ∨ (e = ValidationError
              ∧ c' = Main.mkLog
                       (Main.printed c ++ (new ≫= Main.report) ++ [Main.Researching q])
                       (Main.researched c ++ (ResearchResponse.topic <$> new) ++ [q]))
           ∨ (∃ r, ResearchResponse.topic r = q
                   ∧ print (Main.printed c')
                       (Main.SummaryOf (Main.first150 (ResearchResponse.summary r)))
                     = Some e
                   ∧ c' = Main.mkLog
                            (Main.printed c ++ (new ≫= Main.report)
                               ++ [Main.Researching q])
                            (Main.researched c
                               ++ (ResearchResponse.topic <$> new) ++ [q])))
  end.
Proof.
  revert a rs c. induction qs as [|q qs IH]; intros a rs c; cbn [Main.research_each].
  - exists []. cbn. rewrite !app_nil_r. by destruct c.
  - unfold Main.say. cbv zeta. cbn [Main.printed Main.researched].
    destruct (print (Main.printed c) (Main.Researching q)) as [e|] eqn:Hp1.
    { exists [], q, qs. split; [done |]. left. cbn. rewrite !app_nil_r.
      split; [done | by destruct c]. }
    cbn [Main.printed Main.researched].
    destruct (Agent.research json_loads a q 5) as [[r|e] a1] eqn:E.
    2:{ exists [], q, qs. split; [done |]. right; left. split; [| done].
        apply (research_Raise_inv json_loads a q 5). by rewrite E. }
    assert (ResearchResponse.topic r = q) as Hq
      by (apply (research_Ok_topic a q 5); by rewrite E).
    destruct (print (Main.printed c ++ [Main.Researching q])
                (Main.SummaryOf (Main.first150 (ResearchResponse.summary r))))
      as [e|] eqn:Hp2.
    { exists [], q, qs. split; [done |]. right; right. by exists r. }
    specialize (IH a1 (rs ++ [r])
                  (Main.mkLog
                     ((Main.printed c ++ [Main.Researching q])
                        ++ [Main.SummaryOf (Main.first150 (ResearchResponse.summary r))])
                     (Main.researched c ++ [q]))).
    assert (∀ tail : list Main.line,
              ((Main.printed c ++ [Main.Researching q])
                 ++ [Main.SummaryOf (Main.first150 (ResearchResponse.summary r))])
                ++ tail
              = Main.printed c ++ Main.report r ++ tail) as Hout.
    { intros tail. unfold Main.report. rewrite Hq, <- !app_assoc. done. }
    destruct (research_each a1 qs (rs ++ [r]) _) as [[[out|e] a'] c'];
      cbn [Main.printed Main.researched] in IH.
    + destruct IH as (new & -> & Hnew & ->). exists (r :: new).
      split_and!.
      * by rewrite <- app_assoc.
      * cbn. by rewrite Hq, Hnew.
      * cbn [mbind list_bind]. by rewrite Hout, <- app_assoc.
    + destruct IH as (new & q' & rest & -> & IH). exists (r :: new), q', rest.
      split; [cbn; by rewrite Hq |].
      cbn [mbind list_bind fmap list_fmap]. rewrite Hq.
      destruct IH as [[H1 ->] | [[-> ->] | (r' & H1 & H2 & ->)]].
      * left. split; [done |]. by rewrite Hout, <- app_assoc.
      * right; left. split; [done |]. by rewrite Hout, <- !app_assoc.
      * right; right. exists r'. split_and!; [done | done |].
        by rewrite Hout, <- !app_assoc.
Qed.

Lemma research_each_typed (a : Agent.t) (qs : list string)
    (rs : list ResearchResponse.t) (c : Main.Log) :
  (∀ out l, print out l = None) →
  emits_typed json_loads a → ∃ out, (research_each a qs rs c).1.1 = Ok out.
Proof.
  intros Hpr. revert a rs c.
  induction qs as [|q qs IH]; intros a rs c Hty; cbn [Main.research_each].
  - by exists rs.
  - unfold Main.say. rewrite Hpr. cbn [Main.printed Main.researched].
    destruct (research_typed_Ok a q 5 Hty) as [r Hr].
    destruct (Agent.research json_loads a q 5) as [[r'|e] a1] eqn:E; [| done].
    rewrite Hpr.
    apply research_Ok_history in E as ->. apply IH.
    intros i p text items. apply Hty.
Qed.

(** X17.  [batch_research] prints its header, builds an agent and
    researches its three queries in their order, announcing each before
    the call and printing the head of its summary after it.
    - When it returns, it gives one response for each query, in their
      order and each with its query as topic; all three queries were
      researched and the output is the header and the two lines of each
      response.
    - When an exception leaves it, that is the exception of the
      constructor, with the header printed and nothing researched; or the
      exception of a [print], and the queries researched are the first
      few of the three; or the validation error of a response, and then
      the last line printed announces the query of that response, the
      queries before it have their two lines, and the queries after it
      are neither announced nor researched.
    - With an output that takes every line, an exception of the
      constructor leaves the function after the header, and the function
      returns whenever the constructor does and the objects the model
      emits keep to the schema. *)
Theorem batch_research_results (made : result Llm) (search wikipedia write : Tool) :
  (∀ results c,
     Main.batch_research json_loads print made search wikipedia write = (Ok results, c) →
     ResearchResponse.topic <$> results = Main.queries
     ∧ length results = 3
     ∧ (∃ model, made = Ok model)
     ∧ c = Main.mkLog (Main.header ++ (results ≫= Main.report)) Main.queries)
  ∧ (∀ e c,
       Main.batch_research json_loads print made search wikipedia write = (Raise e, c) →
       (made = Raise e ∧ c = Main.mkLog Main.header [])
       ∨ (∃ l k, print (Main.printed c) l = Some e
                 ∧ Main.researched c = take k Main.queries)
       ∨ (e = ValidationError
          ∧ ∃ new q rest,
              Main.queries = (ResearchResponse.topic <$> new) ++ q :: rest
              ∧ c = Main.mkLog
                      (Main.header ++ (new ≫= Main.report) ++ [Main.Researching q])
                      ((ResearchResponse.topic <$> new) ++ [q])))
  ∧ ((∀ out l, print out l = None) →
     (∀ e, made = Raise e →
           Main.batch_research json_loads print made search wikipedia write
           = (Raise e, Main.mkLog Main.header []))
     ∧ (∀ model, made = Ok model →
           emits_typed json_loads (Agent.new model search wikipedia write) →
           ∃ results c,
             Main.batch_research json_loads print made search wikipedia write
             = (Ok results, c))).
Proof.
  unfold Main.batch_research.
  pose proof (say_all_spec Main.header (Main.mkLog [] [])) as Hhead.
  split_and!.
  - intros results c Hres.
    destruct (say_all Main.header _) as [[[]|e0] c0]; [| done].
    cbn in Hhead. subst c0.
    destruct made as [model|e0]; [| done]. cbn [Main.ResearchAgent] in Hres.
    pose proof (research_each_spec (Agent.new model search wikipedia write)
                  Main.queries [] (Main.mkLog Main.header [])) as Hspec.
    destruct (research_each _ _ _ _) as [[[out|e] a'] c']; [| done].
    injection Hres as -> ->. destruct Hspec as (new & -> & Hnew & ->). cbn.
    split_and!; [done | | by exists model | done].
    by rewrite <- (length_fmap ResearchResponse.topic), Hnew.
  - intros e c Hres.
    destruct (say_all Main.header _) as [[[]|e0] c0].
    2:{ injection Hres as -> ->. destruct Hhead as [Hr [l Hl]].
        right; left. exists l, 0. by rewrite Hr. }
    cbn in Hhead. subst c0.
    destruct made as [model|e0]; cbn [Main.ResearchAgent] in Hres.
    2:{ injection Hres as -> <-. by left. }
    pose proof (research_each_spec (Agent.new model search wikipedia write)
                  Main.queries [] (Main.mkLog Main.header [])) as Hspec.
    destruct (research_each _ _ _ _) as [[[out|e'] a'] c']; [done |].
    injection Hres as -> ->. destruct Hspec as (new & q & rest & Hqs & Hspec).
    cbn [Main.printed Main.researched app] in Hspec.
    destruct Hspec as [[H1 ->] | [[-> ->] | (r & H1 & H2 & ->)]].
    + right; left. exists (Main.Researching q), (length new). split; [done |].
      cbn. rewrite Hqs, <- (length_fmap ResearchResponse.topic new).
      by rewrite take_app_length.
    + right; right. split; [done |]. by exists new, q, rest.
    + right; left.
      exists (Main.SummaryOf (Main.first150 (ResearchResponse.summary r))),
             (S (length new)).
      split; [done |]. cbn [Main.researched].
      rewrite Hqs, (cons_middle q (ResearchResponse.topic <$> new) rest),
        (app_assoc _ [q] rest).
      replace (S (length new))
        with (length ((ResearchResponse.topic <$> new) ++ [q]))
        by (rewrite length_app, length_fmap; cbn; lia).
      by rewrite take_app_length.
  - intros Hpr.
    assert (say_all Main.header (Main.mkLog [] [])
            = (Ok (), Main.mkLog Main.header [])) as ->.
    { cbn. unfold Main.say. by rewrite !Hpr. }
    split.
    + by intros e ->.
    + intros model -> Hty. cbn [Main.ResearchAgent].
      destruct (research_each_typed (Agent.new model search wikipedia write)
                  Main.queries [] (Main.mkLog Main.header []) Hpr Hty) as [out Hout].
      destruct (research_each _ _ _ _) as [[r a'] c']. cbn in Hout. subst r.
      by exists out, c'.
Qed.

End BatchTheorems.

(** ** More theorems on concrete runs *)

Section MoreRuns.
Import Json Py Agent Trace Scenario.

Lemma removed_tool_never_run_witness :
  (research json_loads (remove_tool "search_tool" two_rounds) "q" 5).1
  = Ok (ResearchResponse.mk "q" "X" [] ["wiki_tool"])
  ∧ "search_tool" ∉ ResearchResponse.tools_used (ResearchResponse.mk "q" "X" [] ["wiki_tool"]).
Proof.
  assert ((research json_loads (remove_tool "search_tool" two_rounds) "q" 5).1
          = Ok (ResearchResponse.mk "q" "X" [] ["wiki_tool"])) as H by reflexivity.
  split; [exact H |].
  destruct (removed_tool_never_run json_loads two_rounds "q" "search_tool" 5)
    as (_ & _ & H3).
  exact (H3 _ H).
Defined.

Lemma session_only_grows_witness :
  tool_results (session (round_body json_loads two_rounds "q" 1 (initial "q")).2)
    !! "search_tool" = Some "DuckDuckGo Search Results: about q"
  ∧ tool_results
      (session (rounds json_loads two_rounds "q" [2; 3]%Z
                  (round_body json_loads two_rounds "q" 1 (initial "q")).2))
      !! "search_tool" = Some "DuckDuckGo Search Results: about q".
Proof.
  assert (tool_results (session (round_body json_loads two_rounds "q" 1 (initial "q")).2)
            !! "search_tool" = Some "DuckDuckGo Search Results: about q") as H
    by reflexivity.
  split; [exact H |].
  destruct (session_only_grows json_loads two_rounds "q" [2; 3]%Z
              (round_body json_loads two_rounds "q" 1 (initial "q")).2) as [_ H2].
  exact (H2 _ _ H).
Defined.

Lemma early_exit_has_converged_witness :
  length (llm_rounds (trace (research_loop json_loads two_rounds "q" 5))) < Z.to_nat 5
  ∧ 2 ≤ length (tools_used (session (research_loop json_loads two_rounds "q" 5)))
  ∧ truthy (summary (session (research_loop json_loads two_rounds "q" 5))) = true.
Proof.
  assert (length (llm_rounds (trace (research_loop json_loads two_rounds "q" 5)))
          < Z.to_nat 5) as H.
  { change (llm_rounds _) with [1; 2]%Z. cbn. lia. }
  split; [exact H |].
  destruct (early_exit_has_converged json_loads two_rounds "q" 5 H) as (H1 & H2 & _).
  split; [exact H1 | exact H2].
Defined.

Lemma response_summary_not_empty_witness :
  (research json_loads one_shot "q" 2).1 = Ok (ResearchResponse.mk "q" "X" [] [])
  ∧ ResearchResponse.summary (ResearchResponse.mk "q" "X" [] []) ≠ EmptyString.
Proof.
  assert ((research json_loads one_shot "q" 2).1
          = Ok (ResearchResponse.mk "q" "X" [] [])) as H by reflexivity.
  split; [exact H |].
  destruct (response_summary_not_empty json_loads one_shot "q" 2 _ H) as [H1 _].
  exact H1.
Defined.

Lemma mute_never_plans : never_plans json_loads mute.
Proof. intros i p text items H. discriminate H. Defined.

Lemma no_plan_gives_sentinel_witness :
  never_plans json_loads mute
  ∧ (research json_loads mute "q" 3).1
    = Ok (ResearchResponse.mk "q" sentinel [] [])
  ∧ trace (research_loop json_loads mute "q" 3)
    = [LlmInvoked 1; LlmInvoked 2; LlmInvoked 3].
Proof.
  split; [exact mute_never_plans |].
  destruct (no_plan_gives_sentinel json_loads mute "q" 3 (or_intror mute_never_plans))
    as [H1 H2].
  split; [by rewrite H1 | exact H2].
Defined.

Lemma next_call_sees_exchange_witness :
  research json_loads one_shot "q" 2
  = (Ok (ResearchResponse.mk "q" "X" [] []),
     Agent.mk (llm one_shot) (tool_map one_shot) [mkItem "q" "X" []])
  ∧ last (p_context
            (prompt_of (Agent.mk (llm one_shot) (tool_map one_shot) [mkItem "q" "X" []])
               "and then?" (session (initial "and then?"))))
    = Some ("q", first200 "X").
Proof.
  assert (research json_loads one_shot "q" 2
          = (Ok (ResearchResponse.mk "q" "X" [] []),
             Agent.mk (llm one_shot) (tool_map one_shot) [mkItem "q" "X" []])) as H
    by reflexivity.
  split; [exact H |].
  destruct (next_call_sees_exchange json_loads one_shot "q" 2 _ _ "and then?"
              (session (initial "and then?")) H) as [H1 _].
  exact H1.
Defined.

Lemma builtin_request_served_witness :
  tool_map two_rounds
  = _init_tools (λ _ q, Returned ("about " +:+ q)) (λ _ _, Failed "timed out")
      (λ _ _, Returned EmptyString)
  ∧ after_rounds json_loads two_rounds "q" (initial "q")
  ∧ llm two_rounds 1 (prompt_of two_rounds "q" (session (initial "q"))) = Returned text_both
  ∧ json_loads (Extractor._extract_json text_both)
    = Some (JObj [("tools_used", JArr (JStr <$> ["search_tool"; "wiki_tool"]))])
  ∧ (round_body json_loads two_rounds "q" 1 (initial "q")).1 = Ok Next
  ∧ "wiki_tool" ∈ tools_used (session (round_body json_loads two_rounds "q" 1 (initial "q")).2).
Proof.
  split; [reflexivity |]. split; [apply after_none |].
  split; [reflexivity |]. split; [reflexivity |].
  destruct (builtin_request_served json_loads two_rounds "q"
              (λ _ q, Returned ("about " +:+ q)) (λ _ _, Failed "timed out")
              (λ _ _, Returned EmptyString) 1 (initial "q") text_both
              [("tools_used", JArr (JStr <$> ["search_tool"; "wiki_tool"]))]
              ["search_tool"; "wiki_tool"]) as [H1 H2].
  - reflexivity.
  - apply after_none.
  - reflexivity.
  - reflexivity.
  - reflexivity.
  - discriminate.
  - split; [exact H1 |].
    apply (H2 "wiki_tool").
    + apply list_elem_of_further, list_elem_of_here.
    + apply list_elem_of_further, list_elem_of_here.
Defined.

Lemma fresh_no_short_name (model : Llm) (c : ascii) :
  tool_map (fresh model) !! String c EmptyString = None.
Proof.
  unfold fresh, Agent.new, _init_tools. cbn [tool_map].
  rewrite !lookup_insert, lookup_empty. by repeat case_decide.
Defined.

Lemma string_request_runs_nothing_witness :
  (∀ c, tool_map MoreScenario.bare_name !! String c EmptyString = None)
  ∧ round_body MoreScenario.json_loads MoreScenario.bare_name "q" 1 (initial "q")
    = (Ok Next,
       mkWorld (mkSession [] ∅ "q" (JStr "S") (JArr [])) [LlmInvoked 1]).
Proof.
  split; [exact (fresh_no_short_name _) |].
  apply (string_request_runs_nothing MoreScenario.json_loads MoreScenario.bare_name "q" 1
           (initial "q") MoreScenario.text_name "search_tool"
           [("summary", JStr "S"); ("tools_used", JStr "search_tool")]).
  - exact (fresh_no_short_name _).
  - reflexivity.
  - reflexivity.
  - reflexivity.
  - discriminate.
Defined.

Lemma scalar_request_raises_late_witness :
  llm MoreScenario.numeric 1 (prompt_of MoreScenario.numeric "q" (session (initial "q")))
  = Returned MoreScenario.text_number
  ∧ (round_body MoreScenario.json_loads MoreScenario.numeric "q" 1 (initial "q")).1
    = Raise TypeError
  ∧ summary (session (round_body MoreScenario.json_loads MoreScenario.numeric "q" 1
                        (initial "q")).2)
    = JStr "S".
Proof.
  split; [reflexivity |].
  destruct (scalar_request_raises_late MoreScenario.json_loads MoreScenario.numeric "q" 1
              (initial "q") MoreScenario.text_number
              [("summary", JStr "S"); ("tools_used", JInt 5)]) as [H1 H2].
  - reflexivity.
  - reflexivity.
  - exact I.
  - reflexivity.
  - split; [by rewrite H1 | exact H2].
Defined.

Lemma tool_runs_once_per_round_witness :
  (2%Z, "flaky") ∈ called_in (trace (research_loop json_loads with_flaky "q" 3))
  ∧ (1 ≤ 2 ≤ 3)%Z.
Proof.
  assert ((2%Z, "flaky") ∈ called_in (trace (research_loop json_loads with_flaky "q" 3)))
    as H.
  { change (called_in _) with [(1%Z, "flaky"); (2%Z, "flaky"); (3%Z, "flaky")].
    apply list_elem_of_further, list_elem_of_here. }
  split; [exact H |].
  destruct (tool_runs_once_per_round json_loads with_flaky "q" 3) as [_ H2].
  exact (H2 _ _ H).
Defined.

Lemma batch_research_results_witness :
  (∀ out l, BatchScenario.stdout out l = None)
  ∧ emits_typed json_loads
      (Agent.new (constant text_done) (λ _ q, Returned ("about " +:+ q))
         (λ _ _, Failed "timed out") (λ _ _, Returned EmptyString))
  ∧ ∃ results c,
      Main.batch_research json_loads BatchScenario.stdout (Ok (constant text_done))
        (λ _ q, Returned ("about " +:+ q)) (λ _ _, Failed "timed out")
        (λ _ _, Returned EmptyString) = (Ok results, c)
      ∧ ResearchResponse.topic <$> results = Main.queries
      ∧ Main.researched c = Main.queries.
Proof.
  split; [intros out l; reflexivity |].
  split; [exact one_shot_emits_typed |].
  destruct (batch_research_results json_loads BatchScenario.stdout
              (Ok (constant text_done))
              (λ _ q, Returned ("about " +:+ q)) (λ _ _, Failed "timed out")
              (λ _ _, Returned EmptyString)) as (H1 & _ & H3).
  destruct (H3 (λ out l, eq_refl)) as [_ H4].
  destruct (H4 _ eq_refl one_shot_emits_typed) as (results & c & Hres).
  exists results, c. split; [exact Hres |].
  destruct (H1 _ _ Hres) as (Ht & _ & _ & Hc).
  split; [exact Ht |]. rewrite Hc. reflexivity.
Defined.

(** A batch whose second query gets a plan with ill-typed sources: the
    first query is reported, the second is announced and raises, the
    third is neither announced nor researched. *)
Example batch_stops_at_second :
  Main.batch_research json_loads BatchScenario.stdout (Ok BatchScenario.picky)
    (λ _ q, Returned ("about " +:+ q)) (λ _ _, Failed "timed out")
    (λ _ _, Returned EmptyString)
  = (Raise ValidationError,
     Main.mkLog
       (Main.header
          ++ [Main.Researching "CALCULATETABLE DAX query"; Main.SummaryOf "X";
              Main.Researching "Python list comprehension"])
       ["CALCULATETABLE DAX query"; "Python list comprehension"]).
Proof. reflexivity. Qed.

End MoreRuns.

(** ** A request of unregistered names only, run *)

Section UnknownRuns.
Import Json Py Agent Trace Scenario UnknownScenario.

(** C9 fails as stated: with two tools used, a plan with a summary that
    asks for the unregistered name alone does not stop the loop, where
    the same plan without the name does; the model is asked once more,
    and the call returns another summary. *)
Lemma unknown_name_alone_counterexample :
  let w1 := (round_body UnknownScenario.json_loads insistent "q" 1 (initial "q")).2 in
  tool_map insistent !! "nope" = None
  ∧ tools_used (session w1) = ["search_tool"; "wiki_tool"]
  ∧ llm insistent 2 (prompt_of insistent "q" (session w1)) = Returned text_nope
  ∧ UnknownScenario.json_loads (Extractor._extract_json text_nope)
    = Some (JObj [("summary", JStr "X"); ("tools_used", JArr [JStr "nope"])])
  ∧ json_loads_absent (Extractor._extract_json text_nope)
    = Some (JObj [("summary", JStr "X"); ("tools_used", JArr [])])
  ∧ (round_body UnknownScenario.json_loads insistent "q" 2 w1).1 = Ok Next
  ∧ (round_body json_loads_absent insistent "q" 2 w1).1 = Ok Break
  ∧ llm_rounds (trace (research_loop UnknownScenario.json_loads insistent "q" 5))
    = [1; 2; 3]%Z
  ∧ llm_rounds (trace (research_loop json_loads_absent insistent "q" 5)) = [1; 2]%Z
  ∧ (research UnknownScenario.json_loads insistent "q" 5).1
    = Ok (ResearchResponse.mk "q" "LATE" [] ["search_tool"; "wiki_tool"])
  ∧ (research json_loads_absent insistent "q" 5).1
    = Ok (ResearchResponse.mk "q" "X" [] ["search_tool"; "wiki_tool"])
  ∧ (research UnknownScenario.json_loads insistent "q" 5).1
    ≠ (research json_loads_absent insistent "q" 5).1.
Proof.
  cbv zeta. split_and!; try reflexivity.
  change ((research UnknownScenario.json_loads insistent "q" 5).1)
    with (Ok (ResearchResponse.mk "q" "LATE" [] ["search_tool"; "wiki_tool"])).
  change ((research json_loads_absent insistent "q" 5).1)
    with (Ok (ResearchResponse.mk "q" "X" [] ["search_tool"; "wiki_tool"])).
  discriminate.
Qed.

End UnknownRuns.
